(** * The chat relay route: [src/app/api/chat/send-message/route.ts]

    A shallow embedding of the server route of the chat demo and the
    properties of its message relay pipeline.

    Conventions of the embedding.
    - A JavaScript string is a [string]: each [ascii] stands for one UTF-16
      code unit in the range 0..255, so [String.length] is [.length].  The
      white space of [trim] and the case mapping of [toLowerCase] are the
      ones JavaScript defines on that range.
    - A value parsed from the request body is a [Json]; an absent property
      ([undefined]) is [None].
    - The handler is effectful: it mutates the module-level [conversations]
      map, calls the broker, reads the clock and throws.  Its body is written
      in a small state-and-exception monad [M] over a [Frame].
    - What the outside world does during one request (the parsed body, each
      broker call's fate, the clock, the model API's stream) is a [World].
    - [console.log] and [console.error] have no effect on any result and are
      left out, as is the 150ms pause of the mock stream. *)

From Stdlib Require Import ZArith Ascii String List Bool Lia.
From stdpp Require Import base option list strings gmap.

Local Open Scope Z_scope.

(* ===================================================================== *)
(** ** JavaScript strings *)
(* ===================================================================== *)

Set Warnings "-register-all".

Module Js.

(** Code units that [String.prototype.trim] removes (WhiteSpace and
    LineTerminator), below 256: TAB, LF, VT, FF, CR, SP, NBSP. *)
Definition is_whitespace (c : ascii) : bool :=
  match N_of_ascii c with
  | 9 | 10 | 11 | 12 | 13 | 32 | 160 => true
  | _ => false
  end%N.

Fixpoint trimStart (s : string) : string :=
  match s with
  | EmptyString => EmptyString
  | String c s' => if is_whitespace c then trimStart s' else s
  end.

Definition is_empty (s : string) : bool :=
  match s with EmptyString => true | _ => false end.

Fixpoint trimEnd (s : string) : string :=
  match s with
  | EmptyString => EmptyString
  | String c s' =>
      let r := trimEnd s' in
      if is_whitespace c && is_empty r then EmptyString else String c r
  end.

Definition trim (s : string) : string := trimEnd (trimStart s).

(** [toLowerCase] on one code unit below 256: A-Z, and the Latin-1
    capitals U+00C0..U+00DE except the multiplication sign U+00D7. *)
Definition lower_unit (c : ascii) : ascii :=
  let n := N_of_ascii c in
  if ((65 <=? n) && (n <=? 90))%N then ascii_of_N (n + 32)
  else if ((192 <=? n) && (n <=? 222) && negb (n =? 215))%N
       then ascii_of_N (n + 32)
       else c.

Fixpoint toLowerCase (s : string) : string :=
  match s with
  | EmptyString => EmptyString
  | String c s' => String (lower_unit c) (toLowerCase s')
  end.

(** [s.includes(sub)]: [sub] occurs in [s] as a run of code units. *)
Fixpoint includes (s sub : string) : bool :=
  String.prefix sub s ||
  match s with
  | EmptyString => false
  | String _ s' => includes s' sub
  end.

(** [s.split(" ")]: the pieces between single space characters; two
    adjacent spaces give an empty piece, and the empty string gives one
    empty piece. *)
Fixpoint split_space (s : string) : list string :=
  match s with
  | EmptyString => [EmptyString]
  | String c s' =>
      if Ascii.eqb c " "%char then EmptyString :: split_space s'
      else match split_space s' with
           | w :: ws => String c w :: ws
           | [] => [String c EmptyString]
           end
  end.

End Js.

(* ===================================================================== *)
(** ** JavaScript values and thrown values *)
(* ===================================================================== *)

(** Values that [JSON.parse] can produce.  A number is an integer here;
    the route only tests a number for being zero and for its type. *)
Inductive Json : Type :=
| JNull
| JBool (b : bool)
| JNum (n : Z)
| JStr (s : string)
| JArr (items : list Json)
| JObj (fields : list (string * Json)).

(** ToBoolean; [None] is [undefined]. *)
Definition truthy (v : option Json) : bool :=
  match v with
  | None | Some JNull => false
  | Some (JBool b) => b
  | Some (JNum n) => negb (n =? 0)
  | Some (JStr s) => negb (Js.is_empty s)
  | Some (JArr _) | Some (JObj _) => true
  end.

(** [typeof v === "string"] and [typeof v === "object"]. *)
Definition typeof_string (v : option Json) : bool :=
  match v with Some (JStr _) => true | _ => false end.

Definition typeof_object (v : option Json) : bool :=
  match v with
  | Some JNull | Some (JArr _) | Some (JObj _) => true
  | _ => false
  end.

Fixpoint lookup_field (k : string) (fields : list (string * Json))
  : option Json :=
  match fields with
  | [] => None
  | (k', v) :: rest => if String.eqb k k' then Some v else lookup_field k rest
  end.

(** [v.k] for one of the property names the route reads ([message],
    [sessionId], [userId]) on a non-null value: only a parsed object has
    them. *)
Definition get (v : Json) (k : string) : option Json :=
  match v with
  | JObj fields => lookup_field k fields
  | _ => None
  end.

(** A thrown (or rejected) value as the route inspects it: whether it is
    an [instanceof Error], its [message], the optional [status], [code]
    and [type] the model client attaches, and [String(e)]. *)
Record Exn : Type := mkExn {
  instanceof_Error : bool;
  exn_message : string;
  exn_status : option Z;
  exn_code : option string;
  exn_type : option string;
  exn_string : string
}.

(** [new Error(msg)]. *)
Definition Error (msg : string) : Exn :=
  {| instanceof_Error := true;
     exn_message := msg;
     exn_status := None;
     exn_code := None;
     exn_type := None;
     exn_string := "Error: " +:+ msg |}.

(** The TypeError of reading property [k] of [null] (V8's wording). *)
Definition TypeError_null (k : string) : Exn :=
  let msg := "Cannot read properties of null (reading '" +:+ k +:+ "')" in
  {| instanceof_Error := true;
     exn_message := msg;
     exn_status := None;
     exn_code := None;
     exn_type := None;
     exn_string := "TypeError: " +:+ msg |}.


(* ===================================================================== *)
(** ** Data of the route *)
(* ===================================================================== *)

(** [interface ChatMessage]. *)
Inductive Role : Type := system | user | assistant.

Record ChatMessage : Type := mkChatMessage {
  role : Role;
  content : string
}.

(** [interface RequestBody], as [validateRequestBody] really returns it:
    [userId] is whatever the body carried (the default only replaces an
    absent one). *)
Record RequestBody : Type := mkRequestBody {
  rb_message : string;
  rb_sessionId : string;
  rb_userId : Json
}.

(** The payloads handed to the broker: [PusherUserMessage],
    [PusherAssistantChunk], [PusherAssistantComplete] and [PusherError].
    The constant [type] tags are carried by the constructor. *)
Inductive PusherData : Type :=
| PusherUserMessage (message : string) (userId : Json) (timestamp : string)
| PusherAssistantChunk
    (messageId content chunk timestamp : string) (isComplete : bool)
| PusherAssistantComplete
    (messageId content timestamp : string) (isComplete : bool)
| PusherError (error timestamp : string) (details errorCode : option string).

(** [SuccessResponse] and [ErrorResponse], and the [NextResponse] that
    carries one of them with its HTTP status. *)
Inductive ResponseBody : Type :=
| SuccessResponse (success : bool) (messageId message : string)
| ErrorResponse (error : string) (details errorCode : option string).

Record NextResponse : Type := mkNextResponse {
  status : Z;
  body : ResponseBody
}.

(** The result of [handleOpenAIError]. *)
Record ErrorInfo : Type := mkErrorInfo {
  ei_message : string;
  ei_code : string;
  ei_status : Z
}.

(** One call of [pusher.trigger(channel, event, data)] and whether the
    broker accepted it. *)
Record Trigger : Type := mkTrigger {
  channel : string;
  event : string;
  data : PusherData;
  delivered : bool
}.

(** Normal completion or a thrown value. *)
Inductive Result (A : Type) : Type :=
| Return (a : A)
| Throw (e : Exn).
Arguments Return {A} a.
Arguments Throw {A} e.

(* ===================================================================== *)
(** ** The outside world of one request *)
(* ===================================================================== *)

(** What [openai.chat.completions.create] and the iteration of its stream
    do: the [delta.content] of each unit received (the empty string when a
    unit has none), and the value thrown after them, if any.  A failure
    with no deltas is a call that fails before the first unit. *)
Record Completion : Type := mkCompletion {
  deltas : list string;
  failure : option Exn
}.

Definition OpenAI : Type := list ChatMessage -> Completion.

Record World : Type := mkWorld {
  (** [process.env.NODE_ENV] and [process.env.MOCK_OPENAI] *)
  NODE_ENV : option string;
  MOCK_OPENAI : option string;
  (** the module-level [openai], [None] for [null] *)
  openai : option OpenAI;
  (** [await request.json()] *)
  request_json : Result Json;
  (** fate of the n-th [pusher.trigger] of the request: [None] resolves *)
  trigger_failure : nat -> option Exn;
  (** [new Date().toISOString()] at the n-th reading of the clock *)
  toISOString : nat -> string;
  (** [Date.now()] printed in decimal, and
      [Math.random().toString(36).substr(2, 9)] *)
  Date_now : string;
  Math_random : string
}.

Definition env_is (v : option string) (s : string) : bool :=
  match v with Some x => String.eqb x s | None => false end.

(** [process.env.NODE_ENV === "development" &&
     process.env.MOCK_OPENAI === "true"]. *)
Definition mock_mode (w : World) : bool :=
  env_is (NODE_ENV w) "development" && env_is (MOCK_OPENAI w) "true".

Definition development (w : World) : bool :=
  env_is (NODE_ENV w) "development".

(** Module initialisation, lines 97-109: the client exists exactly when the
    mock flags are not both set. *)
Definition initialise (node_env mock_openai : option string) (sdk : OpenAI)
  : option OpenAI :=
  if env_is node_env "development" && env_is mock_openai "true"
  then None else Some sdk.

(* ===================================================================== *)
(** ** validateRequestBody *)
(* ===================================================================== *)

Definition string_of (v : option Json) : string :=
  match v with Some (JStr s) => s | _ => EmptyString end.

Definition validateRequestBody (body : Json) : Result RequestBody :=
  if negb (truthy (Some body)) || negb (typeof_object (Some body)) then
    Throw (Error "Request body must be an object")
  else
    let message := get body "message" in
    let sessionId := get body "sessionId" in
    let userId :=
      match get body "userId" with
      | None => JStr "anonymous"
      | Some v => v
      end in
    if negb (truthy message) || negb (typeof_string message) then
      Throw (Error "Message is required and must be a string")
    else if negb (truthy sessionId) || negb (typeof_string sessionId) then
      Throw (Error "SessionId is required and must be a string")
    else
      let message := string_of message in
      let sessionId := string_of sessionId in
      if (String.length (Js.trim message) =? 0)%nat then
        Throw (Error "Message cannot be empty")
      else if (4000 <? String.length message)%nat then
        Throw (Error "Message too long (max 4000 characters)")
      else
        Return {| rb_message := Js.trim message;
                  rb_sessionId := sessionId;
                  rb_userId := userId |}.

(* ===================================================================== *)
(** ** handleOpenAIError *)
(* ===================================================================== *)

Definition status_is (e : Exn) (n : Z) : bool :=
  match exn_status e with Some s => s =? n | None => false end.

Definition code_is (e : Exn) (c : string) : bool :=
  match exn_code e with Some s => String.eqb s c | None => false end.

Definition handleOpenAIError (error : Exn) : ErrorInfo :=
  if status_is error 429 then
    if code_is error "insufficient_quota" then
      {| ei_message := "OpenAI API quota exceeded.";
         ei_code := "QUOTA_EXCEEDED";
         ei_status := 429 |}
    else
      {| ei_message :=
           "OpenAI rate limit exceeded. Please try again in a moment.";
         ei_code := "RATE_LIMITED";
         ei_status := 429 |}
  else if status_is error 401 then
    {| ei_message :=
         "OpenAI API key is invalid. Please check your API key configuration.";
       ei_code := "AUTH_FAILED";
       ei_status := 500 |}
  else if status_is error 400 then
    {| ei_message :=
         "Invalid request to OpenAI. Please try a different message.";
       ei_code := "INVALID_REQUEST";
       ei_status := 400 |}
  else if match exn_status error with Some s => 500 <=? s | None => false end
  then
    {| ei_message :=
         "OpenAI service is currently unavailable. Please try again later.";
       ei_code := "SERVICE_UNAVAILABLE";
       ei_status := 503 |}
  else if code_is error "ENOTFOUND" || code_is error "ECONNREFUSED" then
    {| ei_message :=
         "Unable to connect to OpenAI. Please check your internet connection.";
       ei_code := "CONNECTION_ERROR";
       ei_status := 503 |}
  else
    {| ei_message :=
         "An unexpected error occurred while processing your message.";
       ei_code := "UNKNOWN_ERROR";
       ei_status := 500 |}.

(* ===================================================================== *)
(** ** The handler's monad *)
(* ===================================================================== *)

(** The mutable state a request runs on: the module-level [conversations]
    map, every [pusher.trigger] call made so far (oldest first), the number
    of clock readings, and the handler's local [let sessionId]. *)
Record Frame : Type := mkFrame {
  conversations : gmap string (list ChatMessage);
  triggers : list Trigger;
  ticks : nat;
  sessionId : option string
}.

Definition M (A : Type) : Type := Frame -> Result A * Frame.

#[global] Instance M_ret : MRet M := fun A a f => (Return a, f).

#[global] Instance M_bind : MBind M := fun A B k c f =>
  match c f with
  | (Return a, f') => k a f'
  | (Throw e, f') => (Throw e, f')
  end.

Definition throw {A : Type} (e : Exn) : M A := fun f => (Throw e, f).

(** [try { body } catch (e) { handler e }]. *)
Definition try_catch {A : Type} (body : M A) (handler : Exn -> M A) : M A :=
  fun f =>
    match body f with
    | (Return a, f') => (Return a, f')
    | (Throw e, f') => handler e f'
    end.

Definition lift {A : Type} (r : Result A) : M A := fun f => (r, f).

Definition read_sessionId : M (option string) :=
  fun f => (Return (sessionId f), f).

Definition assign_sessionId (sid : option string) : M unit :=
  fun f => (Return tt,
            {| conversations := conversations f; triggers := triggers f;
               ticks := ticks f; sessionId := sid |}).

(** [conversations.has(k)] and [conversations.set(k, v)]. *)
Definition conversations_has (k : string) : M bool :=
  fun f => (Return (bool_decide (is_Some (conversations f !! k))), f).

Definition conversations_set (k : string) (v : list ChatMessage) : M unit :=
  fun f => (Return tt,
            {| conversations := <[k := v]> (conversations f);
               triggers := triggers f; ticks := ticks f;
               sessionId := sessionId f |}).

(** [conversations.get(k)!.push(turn)]: the array held by the map grows in
    place; the result is that array after the push, which is what the
    handler's [conversationHistory] reference then denotes. *)
Definition conversationHistory_push (k : string) (turn : ChatMessage)
  : M (list ChatMessage) :=
  fun f =>
    let history := default [] (conversations f !! k) ++ [turn] in
    (Return history,
     {| conversations := <[k := history]> (conversations f);
        triggers := triggers f; ticks := ticks f;
        sessionId := sessionId f |}).

Section Route.

Variable w : World.

(** [new Date().toISOString()]. *)
Definition now : M string :=
  fun f => (Return (toISOString w (ticks f)),
            {| conversations := conversations f; triggers := triggers f;
               ticks := S (ticks f); sessionId := sessionId f |}).

(** [await pusher.trigger(channel, event, data)]. *)
Definition pusher_trigger (ch ev : string) (d : PusherData) : M unit :=
  fun f =>
    let fate := trigger_failure w (length (triggers f)) in
    let f' := {| conversations := conversations f;
                 triggers := triggers f ++
                   [{| channel := ch; event := ev; data := d;
                       delivered := bool_decide (fate = None) |}];
                 ticks := ticks f; sessionId := sessionId f |} in
    match fate with
    | None => (Return tt, f')
    | Some e => (Throw e, f')
    end.

(* ===================================================================== *)
(** ** sendPusherEvent *)
(* ===================================================================== *)

Definition sendPusherEvent (ch ev : string) (d : PusherData) : M unit :=
  try_catch (pusher_trigger ch ev d) (fun _ => mret tt).

(* ===================================================================== *)
(** ** generateMockResponse *)
(* ===================================================================== *)

Definition mockResponse (message : string) : string :=
  let lowerMessage := Js.toLowerCase message in
  if Js.includes lowerMessage "hello" || Js.includes lowerMessage "hi" then
    "Hello! This is a mock response. Your API is working correctly! How can I help you today?"
  else if Js.includes lowerMessage "test" then
    "This is a test response. Your streaming API, Pusher integration, and error handling are all functioning properly."
  else if Js.includes lowerMessage "how are you" then
    "I'm doing well, thank you! This is a simulated response while you're in development mode."
  else
    "You said: " +:+ String "034"%char message +:+
    String "034"%char ". This is a mock AI response to test your chat API. Everything is working correctly!".

(** The [for] loop of lines 255-276 from index [i] on. *)
Fixpoint mock_loop (messageId sid : string) (words : list string) (i : nat)
    (assistantMessage : string) : M string :=
  match words with
  | [] => mret assistantMessage
  | word :: rest =>
      let chunk := if (i =? 0)%nat then word else " " +:+ word in
      let assistantMessage := assistantMessage +:+ chunk in
      timestamp ← now;
      sendPusherEvent ("chat-" +:+ sid) "assistant-message-chunk"
        (PusherAssistantChunk messageId assistantMessage chunk timestamp false);;
      mock_loop messageId sid rest (S i) assistantMessage
  end.

Definition generateMockResponse (message messageId sid : string) : M string :=
  let words := Js.split_space (mockResponse message) in
  mock_loop messageId sid words 0%nat EmptyString.

(* ===================================================================== *)
(** ** POST *)
(* ===================================================================== *)

(** The [for await] loop of lines 362-383 over the units still to come. *)
Fixpoint stream_loop (messageId sid : string) (units : list string)
    (assistantMessage : string) : M string :=
  match units with
  | [] => mret assistantMessage
  | content :: rest =>
      if negb (Js.is_empty content) then
        let assistantMessage := assistantMessage +:+ content in
        timestamp ← now;
        sendPusherEvent ("chat-" +:+ sid) "assistant-message-chunk"
          (PusherAssistantChunk messageId assistantMessage content timestamp
             false);;
        stream_loop messageId sid rest assistantMessage
      else stream_loop messageId sid rest assistantMessage
  end.

(** Lines 352-383: create the stream, relay its units, then fail if the
    stream does. *)
Definition relay_stream (client : OpenAI) (history : list ChatMessage)
    (messageId sid : string) : M string :=
  let c := client history in
  assistantMessage ← stream_loop messageId sid (deltas c) EmptyString;
  match failure c with
  | Some e => throw e
  | None => mret assistantMessage
  end.

Definition details_of (s : string) : option string :=
  if development w then Some s else None.

(** [userId || "anonymous"]. *)
Definition userId_or_anonymous (userId : Json) : Json :=
  if truthy (Some userId) then userId else JStr "anonymous".

Definition isValidationError (errorMessage : string) : bool :=
  Js.includes errorMessage "required" ||
  Js.includes errorMessage "must be" ||
  Js.includes errorMessage "cannot be empty" ||
  Js.includes errorMessage "too long".

(** Lines 332-417, the choice of strategy: [inr assistantMessage] when the
    code falls through to line 419, [inl response] when the inner [catch]
    returns [response] from the handler. *)
Definition POST_stream (message messageId sid : string)
    (conversationHistory : list ChatMessage) : M (NextResponse + string) :=
  if mock_mode w then
    assistantMessage ← generateMockResponse message messageId sid;
    mret (inr assistantMessage)
  else
    match openai w with
    | None => throw (Error "OpenAI not initialized")
    | Some client =>
        try_catch
          (assistantMessage ←
             relay_stream client conversationHistory messageId sid;
           mret (inr assistantMessage))
          (fun openaiError =>
             let errorInfo := handleOpenAIError openaiError in
             timestamp ← now;
             sendPusherEvent ("chat-" +:+ sid) "service-error"
               (PusherError (ei_message errorInfo) timestamp None
                  (Some (ei_code errorInfo)));;
             mret (inl
               {| status := ei_status errorInfo;
                  body := ErrorResponse (ei_message errorInfo)
                            (details_of (exn_string openaiError))
                            (Some (ei_code errorInfo)) |}))
    end.

(** The body of the outer [try], lines 286-457. *)
Definition POST_try : M NextResponse :=
  body ← lift (request_json w);
  (* line 288: [body.message] throws on [null] *)
  match body with JNull => throw (TypeError_null "message") | _ => mret tt end;;
  validatedBody ← lift (validateRequestBody body);
  let message := rb_message validatedBody in
  let sid := rb_sessionId validatedBody in
  let userId := rb_userId validatedBody in
  assign_sessionId (Some sid);;
  known ← conversations_has sid;
  (if negb known then
     conversations_set sid
       [{| role := system;
           content := "You are a helpful AI assistant. Respond conversationally and be engaging." |}]
   else mret tt);;
  conversationHistory ←
    conversationHistory_push sid {| role := user; content := message |};
  timestamp ← now;
  sendPusherEvent ("chat-" +:+ sid) "user-message"
    (PusherUserMessage message (userId_or_anonymous userId) timestamp);;
  let messageId := "msg_" +:+ Date_now w +:+ "_" +:+ Math_random w in
  streamed ← POST_stream message messageId sid conversationHistory;
  match streamed with
  | inl response => mret response
  | inr assistantMessage =>
      if Js.is_empty (Js.trim assistantMessage) then
        throw (Error "No response generated")
      else
        conversationHistory_push sid
          {| role := assistant; content := assistantMessage |};;
        timestamp ← now;
        sendPusherEvent ("chat-" +:+ sid) "assistant-message-complete"
          (PusherAssistantComplete messageId assistantMessage timestamp true);;
        mret {| status := 200;
                body := SuccessResponse true messageId assistantMessage |}
  end.

(** The outer [catch], lines 458-496. *)
Definition POST_catch (error : Exn) : M NextResponse :=
  let errorMessage :=
    if instanceof_Error error then exn_message error
    else "Unknown error occurred" in
  let isValidation := isValidationError errorMessage in
  sid ← read_sessionId;
  match sid with
  | Some sid =>
      if negb (Js.is_empty sid) then
        timestamp ← now;
        sendPusherEvent ("chat-" +:+ sid) "error"
          (PusherError
             (if isValidation then errorMessage
              else "Failed to process message")
             timestamp
             (details_of errorMessage)
             (Some (if isValidation then "VALIDATION_ERROR"
                    else "PROCESSING_ERROR")))
      else mret tt
  | None => mret tt
  end;;
  mret {| status := if isValidation then 400 else 500;
          body := ErrorResponse
                    (if isValidation then errorMessage
                     else "Failed to process message")
                    (details_of errorMessage)
                    (Some (if isValidation then "VALIDATION_ERROR"
                           else "PROCESSING_ERROR")) |}.

Definition POST : M NextResponse :=
  assign_sessionId None;;
  try_catch POST_try POST_catch.

End Route.

(** One request served on a store: the response (or the value thrown out of
    the handler), the store afterwards and the broker calls made, oldest
    first. *)
Definition serve (w : World) (store : gmap string (list ChatMessage))
  : Result NextResponse * gmap string (list ChatMessage) * list Trigger :=
  let '(r, f) :=
    POST w {| conversations := store; triggers := []; ticks := 0%nat;
              sessionId := None |} in
  (r, conversations f, triggers f).

(* ===================================================================== *)
(** ** validateEnvVars and the initialisation of the module *)
(* ===================================================================== *)

(** [process.env] is a finite map from names to strings; [!process.env[v]]
    holds when [v] is absent or set to the empty string. *)
Definition env_missing (env : gmap string string) (v : string) : bool :=
  match env !! v with
  | Some value => Js.is_empty value
  | None => true
  end.

(** [process.env.NODE_ENV === "development" &&
     process.env.MOCK_OPENAI === "true"], lines 69-70 and 99-100. *)
Definition env_mock (env : gmap string string) : bool :=
  env_is (env !! "NODE_ENV") "development" &&
  env_is (env !! "MOCK_OPENAI") "true".

(** The array [required] once line 73 has run. *)
Definition required (env : gmap string string) : list string :=
  ["PUSHER_APP_ID"; "PUSHER_KEY"; "PUSHER_SECRET"; "PUSHER_CLUSTER"] ++
  (if negb (env_mock env) then ["OPENAI_API_KEY"] else []).

(** The [for] loop of lines 76-80 over the names still to check. *)
Fixpoint check_required (env : gmap string string) (names : list string)
  : Result unit :=
  match names with
  | [] => Return tt
  | envVar :: rest =>
      if env_missing env envVar then
        Throw (Error ("Missing required environment variable: " +:+ envVar))
      else check_required env rest
  end.

Definition validateEnvVars (env : gmap string string) : Result unit :=
  check_required env (required env).





(* ===================================================================== *)
(** ** The client: ChatInterface *)
(* ===================================================================== *)

(** The component of the second part of the file, as transitions of its
    state.  The page's broker settings (NEXT_PUBLIC_PUSHER_KEY and
    NEXT_PUBLIC_PUSHER_CLUSTER) are taken to be set, so that the effect of
    lines 566-633 subscribes and binds its four handlers; rendering and
    scrolling are left out. *)

(** [interface Message]; [type] is ["user"] or ["assistant"]. *)
Inductive Sender : Type := by_user | by_assistant.

Record Message : Type := mkMessage {
  m_id : string;
  m_type : Sender;
  m_content : string;
  m_timestamp : string
}.

(** The state of the component: its [useState] cells, and the [alert]
    calls made so far (oldest first). *)
Record ChatState : Type := mkChatState {
  messages : list Message;
  inputMessage : string;
  isLoading : bool;
  client_sessionId : string;
  currentAssistantMessage : string;
  currentMessageId : option string;
  alerts : list string
}.

(** The initial state, lines 552-560; [now] and [random] are [Date.now()]
    in decimal and [Math.random().toString(36).substr(2, 9)] at the first
    render. *)
Definition initial_state (now random : string) : ChatState :=
  {| messages := [];
     inputMessage := EmptyString;
     isLoading := false;
     client_sessionId := "session_" +:+ now +:+ "_" +:+ random;
     currentAssistantMessage := EmptyString;
     currentMessageId := None;
     alerts := [] |}.

(** The handlers bound in [useEffect], lines 582-623, on the payload of
    the interface each declares. *)
Definition on_user_message (now message timestamp : string)
    (st : ChatState) : ChatState :=
  {| messages := messages st ++
       [{| m_id := "user_" +:+ now; m_type := by_user;
           m_content := message; m_timestamp := timestamp |}];
     inputMessage := inputMessage st;
     isLoading := isLoading st;
     client_sessionId := client_sessionId st;
     currentAssistantMessage := currentAssistantMessage st;
     currentMessageId := currentMessageId st;
     alerts := alerts st |}.

Definition on_chunk (messageId content : string) (st : ChatState)
  : ChatState :=
  {| messages := messages st;
     inputMessage := inputMessage st;
     isLoading := isLoading st;
     client_sessionId := client_sessionId st;
     currentAssistantMessage := content;
     currentMessageId := Some messageId;
     alerts := alerts st |}.

Definition on_complete (messageId content timestamp : string)
    (st : ChatState) : ChatState :=
  {| messages := messages st ++
       [{| m_id := messageId; m_type := by_assistant;
           m_content := content; m_timestamp := timestamp |}];
     inputMessage := inputMessage st;
     isLoading := false;
     client_sessionId := client_sessionId st;
     currentAssistantMessage := EmptyString;
     currentMessageId := None;
     alerts := alerts st |}.

Definition on_error (st : ChatState) : ChatState :=
  {| messages := messages st;
     inputMessage := inputMessage st;
     isLoading := false;
     client_sessionId := client_sessionId st;
     currentAssistantMessage := currentAssistantMessage st;
     currentMessageId := currentMessageId st;
     alerts := alerts st ++ ["An error occurred. Please try again."] |}.

(** What the channel does with one event that reaches it: the handler
    bound to the event's name runs; an event with no handler bound is
    ignored.  [None] stands for a payload that is not of the interface the
    handler declares, which this model does not cover.  [now] is
    [Date.now()] in decimal when the event arrives. *)
Definition on_event (now : string) (c : Trigger) (st : ChatState)
  : option ChatState :=
  if String.eqb (event c) "user-message" then
    match data c with
    | PusherUserMessage message _ timestamp =>
        Some (on_user_message now message timestamp st)
    | _ => None
    end
  else if String.eqb (event c) "assistant-message-chunk" then
    match data c with
    | PusherAssistantChunk messageId content _ _ _ =>
        Some (on_chunk messageId content st)
    | _ => None
    end
  else if String.eqb (event c) "assistant-message-complete" then
    match data c with
    | PusherAssistantComplete messageId content timestamp _ =>
        Some (on_complete messageId content timestamp st)
    | _ => None
    end
  else if String.eqb (event c) "error" then
    match data c with
    | PusherError _ _ _ _ => Some (on_error st)
    | _ => None
    end
  else Some st.

(** The broker calls that reach the component: those the broker accepted,
    on the channel the component subscribed to. *)
Definition reaches_client (st : ChatState) (c : Trigger) : bool :=
  delivered c && String.eqb (channel c) ("chat-" +:+ client_sessionId st).

(** The component receives the calls [calls] in order; the [i]-th event
    received arrives when [Date.now()] prints [clock i]. *)
Fixpoint receive (clock : nat -> string) (i : nat) (calls : list Trigger)
    (st : ChatState) : option ChatState :=
  match calls with
  | [] => Some st
  | c :: rest =>
      if reaches_client st c then
        match on_event (clock i) c st with
        | Some st' => receive clock (S i) rest st'
        | None => None
        end
      else receive clock i rest st
  end.

(** [handleInputChange], lines 686-690: the input follows what is typed. *)
Definition handleInputChange (value : string) (st : ChatState) : ChatState :=
  {| messages := messages st;
     inputMessage := value;
     isLoading := isLoading st;
     client_sessionId := client_sessionId st;
     currentAssistantMessage := currentAssistantMessage st;
     currentMessageId := currentMessageId st;
     alerts := alerts st |}.

(** [sendMessage] up to the [fetch], lines 639-659: [None]
    when it returns at once, else the JSON body posted and the state with
    the input cleared and [isLoading] set. *)
Definition sendMessage_request (st : ChatState)
  : option (Json * ChatState) :=
  if Js.is_empty (Js.trim (inputMessage st)) || isLoading st then None
  else
    let messageToSend := Js.trim (inputMessage st) in
    Some (JObj [("message", JStr messageToSend);
                ("sessionId", JStr (client_sessionId st));
                ("userId", JStr "user123")],
          {| messages := messages st;
             inputMessage := EmptyString;
             isLoading := true;
             client_sessionId := client_sessionId st;
             currentAssistantMessage := currentAssistantMessage st;
             currentMessageId := currentMessageId st;
             alerts := alerts st |}).

(** What [fetch] gives: a response, or a rejection (no response at
    all). *)
Inductive Fetched : Type :=
| Responded (response : NextResponse)
| Rejected.

(** [response.ok]. *)
Definition response_ok (r : NextResponse) : bool :=
  (200 <=? status r) && (status r <=? 299).

(** The [catch] of [sendMessage], lines 670-674. *)
Definition sendMessage_failed (st : ChatState) : ChatState :=
  {| messages := messages st;
     inputMessage := inputMessage st;
     isLoading := false;
     client_sessionId := client_sessionId st;
     currentAssistantMessage := currentAssistantMessage st;
     currentMessageId := currentMessageId st;
     alerts := alerts st ++ ["Failed to send message. Please try again."] |}.

(** [sendMessage] from the [fetch] on, lines 661-674: a response that is
    not [ok], or no response, runs the [catch]; an [ok] response is only
    logged (the route's bodies are JSON, so [response.json()] does not
    throw). *)
Definition sendMessage_settle (fetched : Fetched) (st : ChatState)
  : ChatState :=
  match fetched with
  | Responded response =>
      if response_ok response then st else sendMessage_failed st
  | Rejected => sendMessage_failed st
  end.

(* ===================================================================== *)
(** ** Vocabulary of the statements *)
(* ===================================================================== *)

(** *** Texts and turns *)

(** The chunks of the mock loop: each piece from index [i] on, with a
    space in front unless it is the piece of index 0. *)
Fixpoint spaced (words : list string) (i : nat) : list string :=
  match words with
  | [] => []
  | word :: rest =>
      (if (i =? 0)%nat then word else " " +:+ word) :: spaced rest (S i)
  end.

(** The units of a stream that carry text. *)
Definition nonempty_units (units : list string) : list string :=
  filter (fun u => Js.is_empty u = false) units.

Definition join (pieces : list string) : string :=
  foldr String.append EmptyString pieces.

(** The turn a fresh conversation is seeded with. *)
Definition system_turn : ChatMessage :=
  {| role := system;
     content := "You are a helpful AI assistant. Respond conversationally and be engaging." |}.

(** The conversation of [sid] once the handler has resolved the session. *)
Definition resolved (store : gmap string (list ChatMessage)) (sid : string)
  : list ChatMessage :=
  default [system_turn] (store !! sid).

Definition user_turn (m : string) : ChatMessage :=
  {| role := user; content := Js.trim m |}.

Definition assistant_turn (T : string) : ChatMessage :=
  {| role := assistant; content := T |}.

(** The history handed to the streaming step: the resolved conversation
    with the user turn pushed. *)
Definition history_of (store : gmap string (list ChatMessage))
    (vb : RequestBody) : list ChatMessage :=
  resolved store (rb_sessionId vb) ++
  [{| role := user; content := rb_message vb |}].

(** [`msg_${Date.now()}_${Math.random().toString(36).substr(2, 9)}`]. *)
Definition fresh_messageId (w : World) : string :=
  "msg_" +:+ Date_now w +:+ "_" +:+ Math_random w.

Definition channel_of (sid : string) : string := "chat-" +:+ sid.

(** *** Broker calls *)

(** The [assistant-message-chunk] calls a loop makes for the chunks
    [chunks], starting from the accumulated text [acc], as the [n]-th broker
    call and the [t]-th clock reading. *)
Fixpoint chunk_triggers (w : World) (ch messageId : string)
    (chunks : list string) (acc : string) (n t : nat) : list Trigger :=
  match chunks with
  | [] => []
  | c :: rest =>
      {| channel := ch;
         event := "assistant-message-chunk";
         data := PusherAssistantChunk messageId (acc +:+ c) c
                   (toISOString w t) false;
         delivered := bool_decide (trigger_failure w n = None) |}
      :: chunk_triggers w ch messageId rest (acc +:+ c) (S n) (S t)
  end.

(** The [user-message] call, the first broker call of a validated
    request. *)
Definition user_trigger (w : World) (vb : RequestBody) : Trigger :=
  {| channel := channel_of (rb_sessionId vb);
     event := "user-message";
     data := PusherUserMessage (rb_message vb)
               (userId_or_anonymous (rb_userId vb)) (toISOString w 0);
     delivered := bool_decide (trigger_failure w 0 = None) |}.

(** The [assistant-message-complete] call after [n] chunk calls. *)
Definition complete_trigger (w : World) (sid T : string) (n : nat)
  : Trigger :=
  {| channel := channel_of sid;
     event := "assistant-message-complete";
     data := PusherAssistantComplete (fresh_messageId w) T
               (toISOString w (S n)) true;
     delivered := bool_decide (trigger_failure w (S n) = None) |}.

(** The [service-error] call after [n] chunk calls. *)
Definition service_error_trigger (w : World) (sid : string) (e : Exn)
    (n : nat) : Trigger :=
  {| channel := channel_of sid;
     event := "service-error";
     data := PusherError (ei_message (handleOpenAIError e))
               (toISOString w (S n)) None
               (Some (ei_code (handleOpenAIError e)));
     delivered := bool_decide (trigger_failure w (S n) = None) |}.

(** The frame once [pusher.trigger(ch, ev, d)] has been called in [f]. *)
Definition with_trigger (w : World) (ch ev : string) (d : PusherData)
    (f : Frame) : Frame :=
  {| conversations := conversations f;
     triggers := triggers f ++
       [{| channel := ch; event := ev; data := d;
           delivered :=
             bool_decide (trigger_failure w (length (triggers f)) = None) |}];
     ticks := ticks f;
     sessionId := sessionId f |}.

(** What the handler asked of the broker, whatever became of it. *)
Definition attempt (c : Trigger) : string * string * PusherData :=
  (channel c, event c, data c).

Definition event_is (name : string) (c : Trigger) : bool :=
  String.eqb (event c) name.

(** The [isComplete] field of a payload, when it has one. *)
Definition isComplete_of (d : PusherData) : option bool :=
  match d with
  | PusherAssistantChunk _ _ _ _ b => Some b
  | PusherAssistantComplete _ _ _ b => Some b
  | _ => None
  end.

Definition completes (c : Trigger) : bool :=
  bool_decide (isComplete_of (data c) = Some true).

(** The [chunk] field of an [assistant-message-chunk] payload. *)
Definition chunk_of (d : PusherData) : option string :=
  match d with
  | PusherAssistantChunk _ _ c _ _ => Some c
  | _ => None
  end.

(** The [chunk] fields of the chunk events among some broker calls. *)
Definition chunk_strings (calls : list Trigger) : list string :=
  omap (fun c => chunk_of (data c)) calls.

(** [PusherAssistantChunk] payloads whose [content] grows by their [chunk]:
    [ChunkChain prev ds last] says that the payloads [ds] extend the text
    [prev] step by step up to [last], each with [isComplete = false]. *)
Inductive ChunkChain : string -> list PusherData -> string -> Prop :=
| ChunkChain_nil prev : ChunkChain prev [] prev
| ChunkChain_cons prev messageId chunk timestamp rest last :
    ChunkChain (prev +:+ chunk) rest last ->
    ChunkChain prev
      (PusherAssistantChunk messageId (prev +:+ chunk) chunk timestamp false
       :: rest) last.

(** *** Outcomes of the streaming step *)

(** The streaming step succeeds for the user text [message] on the history
    [history] and yields the final text [T]: the mock strategy always does;
    the model-backed one does when the client exists and its stream ends
    without a throw. *)
Definition StreamSucceeds (w : World) (message : string)
    (history : list ChatMessage) (T : string) : Prop :=
  if mock_mode w then T = mockResponse message
  else exists client, openai w = Some client /\
         failure (client history) = None /\
         T = join (deltas (client history)).

(** The model-backed streaming step fails with [e]. *)
Definition StreamFails (w : World) (history : list ChatMessage) (e : Exn)
  : Prop :=
  mock_mode w = false /\
  exists client, openai w = Some client /\ failure (client history) = Some e.

(** The chunks the streaming step relays. *)
Definition stream_chunks (w : World) (message : string)
    (history : list ChatMessage) : list string :=
  if mock_mode w then spaced (Js.split_space (mockResponse message)) 0
  else match openai w with
       | Some client => nonempty_units (deltas (client history))
       | None => []
       end.

(** The frame once the streaming step has relayed its chunks from [f]. *)
Definition relayed (w : World) (message messageId sid : string)
    (history : list ChatMessage) (f : Frame) : Frame :=
  {| conversations := conversations f;
     triggers := triggers f ++
       chunk_triggers w (channel_of sid) messageId
         (stream_chunks w message history) EmptyString
         (length (triggers f)) (ticks f);
     ticks := (length (stream_chunks w message history) + ticks f)%nat;
     sessionId := sessionId f |}.

(** The frame a request starts in. *)
Definition fresh_frame (store : gmap string (list ChatMessage)) : Frame :=
  {| conversations := store; triggers := []; ticks := 0; sessionId := None |}.

(** *** The outer catch *)

(** The outer [catch]. *)
Definition errorMessage_of (error : Exn) : string :=
  if instanceof_Error error then exn_message error
  else "Unknown error occurred".

Definition error_response (w : World) (error : Exn) : NextResponse :=
  let errorMessage := errorMessage_of error in
  if isValidationError errorMessage then
    {| status := 400;
       body := ErrorResponse errorMessage (details_of w errorMessage)
                 (Some "VALIDATION_ERROR") |}
  else
    {| status := 500;
       body := ErrorResponse "Failed to process message"
                 (details_of w errorMessage) (Some "PROCESSING_ERROR") |}.

(** *** Requests *)

(** A request the validator accepts: a parsed object whose [message] is the
    string [m], of at most 4000 code units and not blank, and whose
    [sessionId] is the non-empty string [s]. *)
Definition ValidRequest (w : World) (m s : string) : Prop :=
  exists fields,
    request_json w = Return (JObj fields) /\
    lookup_field "message" fields = Some (JStr m) /\
    lookup_field "sessionId" fields = Some (JStr s) /\
    s <> EmptyString /\
    Js.trim m <> EmptyString /\
    (String.length m <= 4000)%nat.

(** The validator throws the error of its length rule. *)
Definition too_long (r : Result RequestBody) : Prop :=
  r = Throw (Error "Message too long (max 4000 characters)").

(** *** The classifier's table *)

(** The rules of the classifier, in the order they are checked. *)
Inductive Rule : Type :=
| Quota | RateLimit | Auth | InvalidRequest | Unavailable | Connection
| Unknown.

Definition rule_code (r : Rule) : string :=
  match r with
  | Quota => "QUOTA_EXCEEDED"
  | RateLimit => "RATE_LIMITED"
  | Auth => "AUTH_FAILED"
  | InvalidRequest => "INVALID_REQUEST"
  | Unavailable => "SERVICE_UNAVAILABLE"
  | Connection => "CONNECTION_ERROR"
  | Unknown => "UNKNOWN_ERROR"
  end.

Definition rule_status (r : Rule) : Z :=
  match r with
  | Quota | RateLimit => 429
  | Auth | Unknown => 500
  | InvalidRequest => 400
  | Unavailable | Connection => 503
  end.

Definition rule_message (r : Rule) : string :=
  match r with
  | Quota => "OpenAI API quota exceeded."
  | RateLimit => "OpenAI rate limit exceeded. Please try again in a moment."
  | Auth =>
      "OpenAI API key is invalid. Please check your API key configuration."
  | InvalidRequest =>
      "Invalid request to OpenAI. Please try a different message."
  | Unavailable =>
      "OpenAI service is currently unavailable. Please try again later."
  | Connection =>
      "Unable to connect to OpenAI. Please check your internet connection."
  | Unknown => "An unexpected error occurred while processing your message."
  end.

Definition rule_info (r : Rule) : ErrorInfo :=
  {| ei_message := rule_message r;
     ei_code := rule_code r;
     ei_status := rule_status r |}.

(** No rule on the HTTP status applies: the status is absent, or it is
    none of 429, 401, 400 and is below 500. *)
Definition no_status_rule (e : Exn) : Prop :=
  match exn_status e with
  | None => True
  | Some s => s <> 429 /\ s <> 401 /\ s <> 400 /\ s < 500
  end.

(** [Applies r e]: the condition of rule [r] holds of [e], and the
    condition of no earlier rule does. *)
Inductive Applies : Rule -> Exn -> Prop :=
| Applies_quota e :
    exn_status e = Some 429 ->
    exn_code e = Some "insufficient_quota" ->
    Applies Quota e
| Applies_rate e :
    exn_status e = Some 429 ->
    exn_code e <> Some "insufficient_quota" ->
    Applies RateLimit e
| Applies_auth e :
    exn_status e = Some 401 ->
    Applies Auth e
| Applies_invalid e :
    exn_status e = Some 400 ->
    Applies InvalidRequest e
| Applies_unavailable e s :
    exn_status e = Some s -> 500 <= s ->
    Applies Unavailable e
| Applies_connection e :
    no_status_rule e ->
    exn_code e = Some "ENOTFOUND" \/ exn_code e = Some "ECONNREFUSED" ->
    Applies Connection e
| Applies_unknown e :
    no_status_rule e ->
    exn_code e <> Some "ENOTFOUND" ->
    exn_code e <> Some "ECONNREFUSED" ->
    Applies Unknown e.

(** *** Words of a text *)

(** The words of a text in the usual sense: its maximal runs of code units
    that are not white space.  [words_from s cur] reads [s] with the word
    [cur] under way. *)
Fixpoint words_from (s cur : string) : list string :=
  match s with
  | EmptyString => if Js.is_empty cur then [] else [cur]
  | String c s' =>
      if Js.is_whitespace c then
        if Js.is_empty cur then words_from s' EmptyString
        else cur :: words_from s' EmptyString
      else words_from s' (cur +:+ String c EmptyString)
  end.

Definition whitespace_words (s : string) : list string :=
  words_from s EmptyString.

(** *** Worlds that differ in the broker's behaviour *)

(** The same world with other fates for the broker calls. *)
Definition with_trigger_failure (w : World) (fate : nat -> option Exn)
  : World :=
  {| NODE_ENV := NODE_ENV w;
     MOCK_OPENAI := MOCK_OPENAI w;
     openai := openai w;
     request_json := request_json w;
     trigger_failure := fate;
     toISOString := toISOString w;
     Date_now := Date_now w;
     Math_random := Math_random w |}.

(** Two frames that differ at most in which broker calls were delivered. *)
Definition alike (f g : Frame) : Prop :=
  conversations f = conversations g /\
  map attempt (triggers f) = map attempt (triggers g) /\
  ticks f = ticks g /\
  sessionId f = sessionId g.

(** Two computations that, from alike frames, give the same result and
    leave alike frames. *)
Definition agree {A : Type} (c d : M A) : Prop :=
  forall f g, alike f g ->
    fst (c f) = fst (d g) /\ alike (snd (c f)) (snd (d g)).

(** *** Concrete worlds, bodies and failures *)

(** A development deployment in mock mode: every broker call succeeds. *)
Definition mock_world (parsed : Result Json) : World :=
  {| NODE_ENV := Some "development";
     MOCK_OPENAI := Some "true";
     openai := None;
     request_json := parsed;
     trigger_failure := fun _ => None;
     toISOString := fun _ => "2024-05-01T12:00:00.000Z";
     Date_now := "1714564800000";
     Math_random := "k3x9q2m7c" |}.

(** A production deployment whose model client behaves as [client]; the
    broker rejects every second call. *)
Definition live_world (parsed : Result Json) (client : OpenAI) : World :=
  {| NODE_ENV := Some "production";
     MOCK_OPENAI := None;
     openai := initialise (Some "production") None client;
     request_json := parsed;
     trigger_failure := fun n =>
       if Nat.even n then None else Some (Error "connect ETIMEDOUT");
     toISOString := fun _ => "2024-05-01T12:00:00.000Z";
     Date_now := "1714564800000";
     Math_random := "k3x9q2m7c" |}.

Definition chat_body (message sid : string) : Json :=
  JObj [("message", JStr message); ("sessionId", JStr sid)].

Definition hello_request : RequestBody :=
  {| rb_message := "hello"; rb_sessionId := "s1";
     rb_userId := JStr "anonymous" |}.

(** [n] copies of the code unit [c]. *)
Definition replicate_unit (n : nat) (c : ascii) : string :=
  Nat.iter n (String c) EmptyString.

(** 4000 letters followed by one space: 4001 code units, 4000 once
    trimmed. *)
Definition padded_message : string :=
  replicate_unit 4000 "a"%char +:+ " ".

(** The rejection of [request.json()] on a short body [raw] that is no
    JSON because its first character [token] cannot start a value, as
    Node 22 words it: the message quotes the body,
    [Unexpected token '<', "<html>" is not valid JSON]. *)
Definition SyntaxError_unexpected (token raw : string) : Exn :=
  let msg := "Unexpected token '" +:+ token +:+ "', " +:+
             String "034"%char raw +:+
             String "034"%char " is not valid JSON" in
  {| instanceof_Error := true;
     exn_message := msg;
     exn_status := None;
     exn_code := None;
     exn_type := None;
     exn_string := "SyntaxError: " +:+ msg |}.

(** The rejection of [request.json()] on the body [<html>]. *)
Definition SyntaxError_html : Exn := SyntaxError_unexpected "<" "<html>".

(** The rejection of [request.json()] on the body [must be]. *)
Definition SyntaxError_must_be : Exn :=
  SyntaxError_unexpected "m" "must be".

(** A quota failure as the model client reports it. *)
Definition quota_error : Exn :=
  {| instanceof_Error := true;
     exn_message := "429 You exceeded your current quota";
     exn_status := Some 429;
     exn_code := Some "insufficient_quota";
     exn_type := Some "insufficient_quota";
     exn_string := "Error: 429 You exceeded your current quota" |}.

(** An upstream outage as the model client reports it. *)
Definition unavailable_error : Exn :=
  {| instanceof_Error := true;
     exn_message := "503 Service Unavailable";
     exn_status := Some 503;
     exn_code := None;
     exn_type := None;
     exn_string := "Error: 503 Service Unavailable" |}.

(** A stream that relays two units and then breaks with HTTP 503. *)
Definition breaking_client : OpenAI := fun _ =>
  {| deltas := ["Hel"; "lo"]; failure := Some unavailable_error |}.

(** A stream that ends normally after a single blank unit. *)
Definition blank_client : OpenAI := fun _ =>
  {| deltas := [" "]; failure := None |}.

(** A stream of three units, the second without text. *)
Definition greeting_client : OpenAI := fun _ =>
  {| deltas := ["Hi"; ""; " there"]; failure := None |}.

(** One run of the mock generator from an empty frame: its result and the
    chunk strings it published. *)
Definition mock_run (w : World) (message : string)
  : Result string * list string :=
  let '(r, f) :=
    generateMockResponse w message "msg_1_x" "s1"
      {| conversations := ∅; triggers := []; ticks := 0;
         sessionId := Some "s1" |} in
  (r, chunk_strings (triggers f)).

(** *** The ways a request can go *)

(** The [error] call of the outer [catch] for the thrown value [e], as the
    [n]-th broker call and the [t]-th clock reading. *)
Definition error_trigger (w : World) (sid : string) (e : Exn) (n t : nat)
  : Trigger :=
  {| channel := channel_of sid;
     event := "error";
     data := PusherError
               (if isValidationError (errorMessage_of e)
                then errorMessage_of e else "Failed to process message")
               (toISOString w t)
               (details_of w (errorMessage_of e))
               (Some (if isValidationError (errorMessage_of e)
                      then "VALIDATION_ERROR" else "PROCESSING_ERROR"));
     delivered := bool_decide (trigger_failure w n = None) |}.

(** The chunk calls of a validated request. *)
Definition chunk_calls (w : World) (store : gmap string (list ChatMessage))
    (vb : RequestBody) : list Trigger :=
  chunk_triggers w (channel_of (rb_sessionId vb)) (fresh_messageId w)
    (stream_chunks w (rb_message vb) (history_of store vb)) EmptyString 1 1.

(** The way a request went: it failed before its session was resolved; or
    it was validated and then completed, ended with a blank text, failed
    in the model call, or found no model client. *)
Inductive Path : Type :=
| Unresolved (e : Exn)
| Completed (vb : RequestBody) (T : string)
| Blank (vb : RequestBody) (T : string)
| ModelFailed (vb : RequestBody) (e : Exn)
| NoClient (vb : RequestBody).

(** When a request goes which way. *)
Definition Takes (w : World) (store : gmap string (list ChatMessage))
    (p : Path) : Prop :=
  match p with
  | Unresolved e =>
      request_json w = Throw e \/
      (request_json w = Return JNull /\ e = TypeError_null "message") \/
      (exists body, request_json w = Return body /\ body <> JNull /\
                    validateRequestBody body = Throw e)
  | Completed vb T =>
      (exists body, request_json w = Return body /\
                    validateRequestBody body = Return vb) /\
      StreamSucceeds w (rb_message vb) (history_of store vb) T /\
      Js.is_empty (Js.trim T) = false
  | Blank vb T =>
      (exists body, request_json w = Return body /\
                    validateRequestBody body = Return vb) /\
      StreamSucceeds w (rb_message vb) (history_of store vb) T /\
      Js.is_empty (Js.trim T) = true
  | ModelFailed vb e =>
      (exists body, request_json w = Return body /\
                    validateRequestBody body = Return vb) /\
      StreamFails w (history_of store vb) e
  | NoClient vb =>
      (exists body, request_json w = Return body /\
                    validateRequestBody body = Return vb) /\
      mock_mode w = false /\ openai w = None
  end.

(** What the request leaves behind on each way: response, store and broker
    calls. *)
Definition result_of (w : World) (store : gmap string (list ChatMessage))
    (p : Path)
  : Result NextResponse * gmap string (list ChatMessage) * list Trigger :=
  match p with
  | Unresolved e => (Return (error_response w e), store, [])
  | Completed vb T =>
      (Return {| status := 200;
                 body := SuccessResponse true (fresh_messageId w) T |},
       <[rb_sessionId vb := history_of store vb ++ [assistant_turn T]]> store,
       user_trigger w vb :: chunk_calls w store vb ++
       [complete_trigger w (rb_sessionId vb) T
          (length (chunk_calls w store vb))])
  | Blank vb T =>
      (Return (error_response w (Error "No response generated")),
       <[rb_sessionId vb := history_of store vb]> store,
       user_trigger w vb :: chunk_calls w store vb ++
       [error_trigger w (rb_sessionId vb) (Error "No response generated")
          (S (length (chunk_calls w store vb)))
          (S (length (chunk_calls w store vb)))])
  | ModelFailed vb e =>
      (Return {| status := ei_status (handleOpenAIError e);
                 body := ErrorResponse (ei_message (handleOpenAIError e))
                           (details_of w (exn_string e))
                           (Some (ei_code (handleOpenAIError e))) |},
       <[rb_sessionId vb := history_of store vb]> store,
       user_trigger w vb :: chunk_calls w store vb ++
       [service_error_trigger w (rb_sessionId vb) e
          (length (chunk_calls w store vb))])
  | NoClient vb =>
      (Return (error_response w (Error "OpenAI not initialized")),
       <[rb_sessionId vb := history_of store vb]> store,
       [user_trigger w vb;
        error_trigger w (rb_sessionId vb) (Error "OpenAI not initialized")
          1 1])
  end.

(** *** Invariants of the store *)

(** Every assistant turn of [h] comes right after a user turn. *)
Fixpoint answers_follow_questions (prev : Role) (h : list ChatMessage)
  : bool :=
  match h with
  | [] => true
  | turn :: rest =>
      match role turn, prev with
      | assistant, user => answers_follow_questions assistant rest
      | assistant, _ => false
      | r, _ => answers_follow_questions r rest
      end
  end.

(** A conversation as the handler builds them: the system turn first, no
    other system turn, and every assistant turn right after a user turn. *)
Definition well_formed (h : list ChatMessage) : Prop :=
  exists rest,
    h = system_turn :: rest /\
    Forall (fun turn => role turn <> system) rest /\
    answers_follow_questions system rest = true.

Definition store_well_formed (store : gmap string (list ChatMessage))
  : Prop :=
  forall sid h, store !! sid = Some h -> well_formed h.

(** *** The deployment *)


(** *** The client and the route together *)

(** The world of the request the client posts: [w] with the posted body
    parsed. *)
Definition posted (w : World) (parsed : Json) : World :=
  {| NODE_ENV := NODE_ENV w;
     MOCK_OPENAI := MOCK_OPENAI w;
     openai := openai w;
     request_json := Return parsed;
     trigger_failure := trigger_failure w;
     toISOString := toISOString w;
     Date_now := Date_now w;
     Math_random := Math_random w |}.

(** [p] is an initial part of [s]. *)
Definition is_prefix (p s : string) : Prop := exists rest, s = p +:+ rest.

(** *** Fields of the payloads *)

(** The [messageId] field of a payload, when it has one. *)
Definition messageId_of (d : PusherData) : option string :=
  match d with
  | PusherAssistantChunk messageId _ _ _ _ => Some messageId
  | PusherAssistantComplete messageId _ _ _ => Some messageId
  | _ => None
  end.

(** The names of the three events that end the calls of a request. *)
Definition closing_events : list string :=
  ["assistant-message-complete"; "service-error"; "error"].

(** *** The environment *)

(** The variable [v] is set to a non-empty string. *)
Definition env_set (env : gmap string string) (v : string) : Prop :=
  exists value, env !! v = Some value /\ value <> EmptyString.


(** One exchange between the page and the route: the page posts its input;
    the route serves the request in the world [w]; the events the broker
    accepted reach the page in the order they were published; then the
    response reaches the page.  The result is the page's state and the
    store afterwards; the page's state is unchanged when [sendMessage]
    returns at once, and [None] only stands for a payload outside the
    model of [on_event]. *)
Definition exchange (w : World) (clock : nat -> string)
    (store : gmap string (list ChatMessage)) (st : ChatState)
  : option (ChatState * gmap string (list ChatMessage)) :=
  match sendMessage_request st with
  | None => Some (st, store)
  | Some (parsed, posting) =>
      let '(r, store', calls) := serve (posted w parsed) store in
      match receive clock 0 calls posting with
      | Some received =>
          Some (sendMessage_settle
                  (match r with
                   | Return response => Responded response
                   | Throw _ => Rejected
                   end) received,
                store')
      | None => None
      end
  end.

(** The broker accepts every call. *)
Definition broker_up (w : World) : Prop :=
  forall n, trigger_failure w n = None.

(** The page may send: its input is not blank and no request is under
    way; [sid] is its session identifier, of the form the page builds. *)
Definition ready (st : ChatState) : Prop :=
  Js.trim (inputMessage st) <> EmptyString /\
  isLoading st = false /\
  exists now random,
    client_sessionId st = "session_" +:+ now +:+ "_" +:+ random.

(** The request the page posts from [st], as validated by the route. *)
Definition page_request (st : ChatState) : RequestBody :=
  {| rb_message := Js.trim (inputMessage st);
     rb_sessionId := client_sessionId st;
     rb_userId := JStr "user123" |}.

(** The JSON body the page posts from [st]. *)
Definition page_body (st : ChatState) : Json :=
  JObj [("message", JStr (Js.trim (inputMessage st)));
        ("sessionId", JStr (client_sessionId st));
        ("userId", JStr "user123")].

(** The page's state once it has posted. *)
Definition posting_state (st : ChatState) : ChatState :=
  {| messages := messages st;
     inputMessage := EmptyString;
     isLoading := true;
     client_sessionId := client_sessionId st;
     currentAssistantMessage := currentAssistantMessage st;
     currentMessageId := currentMessageId st;
     alerts := alerts st |}.

(** A fresh page in which the text [input] has been typed. *)
Definition typing (input : string) : ChatState :=
  handleInputChange input (initial_state "17" "abc").

(** The number of calls among [calls] that reach the page. *)
Definition arrivals (st : ChatState) (calls : list Trigger) : nat :=
  length (filter (fun c => reaches_client st c = true) calls).

(** A production deployment whose broker accepts every call. *)
Definition steady_world (client : OpenAI) : World :=
  with_trigger_failure (live_world (Return JNull) client) (fun _ => None).

(* ===================================================================== *)
(** ** Facts about strings *)
(* ===================================================================== *)

Lemma append_cons c s t : String c s +:+ t = String c (s +:+ t).
Proof. reflexivity. Qed.

Lemma append_nil_l t : EmptyString +:+ t = t.
Proof. reflexivity. Qed.

Lemma append_nil_r s : s +:+ EmptyString = s.
Proof.
  induction s as [|c s IH]; [reflexivity|].
  by rewrite append_cons, IH.
Qed.

Lemma append_assoc s t u : (s +:+ t) +:+ u = s +:+ (t +:+ u).
Proof.
  induction s as [|c s IH]; [reflexivity|].
  by rewrite !append_cons, IH.
Qed.

Lemma length_append s t :
  String.length (s +:+ t) = (String.length s + String.length t)%nat.
Proof.
  induction s as [|c s IH]; [reflexivity|].
  rewrite append_cons. cbn. by rewrite IH.
Qed.

(* ===================================================================== *)
(** ** Running the primitives *)
(* ===================================================================== *)

Lemma sendPusherEvent_run w ch ev d f :
  sendPusherEvent w ch ev d f = (Return tt, with_trigger w ch ev d f).
Proof.
  unfold sendPusherEvent, try_catch, pusher_trigger, with_trigger.
  destruct (trigger_failure w (length (triggers f))); reflexivity.
Qed.

Lemma bind_run {A B} (c : M A) (k : A -> M B) f a f' :
  c f = (Return a, f') -> (c ≫= k) f = k a f'.
Proof. intros H. unfold mbind, M_bind. rewrite H. reflexivity. Qed.

Lemma bind_throw {A B} (c : M A) (k : A -> M B) f e f' :
  c f = (Throw e, f') -> (c ≫= k) f = (Throw e, f').
Proof. intros H. unfold mbind, M_bind. rewrite H. reflexivity. Qed.

Lemma stream_loop_run w messageId sid units : forall acc f,
  stream_loop w messageId sid units acc f =
  (Return (acc +:+ join units),
   {| conversations := conversations f;
      triggers := triggers f ++
        chunk_triggers w ("chat-" +:+ sid) messageId (nonempty_units units)
          acc (length (triggers f)) (ticks f);
      ticks := (length (nonempty_units units) + ticks f)%nat;
      sessionId := sessionId f |}).
Proof.
  induction units as [|u units IH]; intros acc f.
  - cbn. rewrite append_nil_r, app_nil_r. by destruct f.
  - cbn [stream_loop]. destruct u as [|c u].
    + cbn. apply IH.
    + cbn [Js.is_empty negb].
      erewrite bind_run by reflexivity.
      erewrite bind_run by apply sendPusherEvent_run.
      rewrite IH. cbn [with_trigger conversations triggers ticks sessionId join foldr].
      unfold nonempty_units. rewrite filter_cons_True by done.
      cbn [chunk_triggers length].
      rewrite <- app_assoc, length_app, append_assoc. cbn [length app].
      rewrite Nat.add_1_r, Nat.add_succ_r. reflexivity.
Qed.

Lemma spaced_succ words i :
  spaced words (S i) = map (String.append " ") words.
Proof.
  revert i. induction words as [|word words IH]; intros i; [reflexivity|].
  cbn. by rewrite IH.
Qed.

Lemma split_space_cons s : exists word words, Js.split_space s = word :: words.
Proof.
  destruct s as [|c s]; cbn; [by eauto|].
  destruct (Ascii.eqb c " "); [by eauto|].
  destruct (Js.split_space s); by eauto.
Qed.

(** Joining the pieces of [split(" ")] with single spaces gives the string
    back, which is what the mock loop accumulates. *)
Lemma join_spaced_split s : join (spaced (Js.split_space s) 0) = s.
Proof.
  induction s as [|c s IH]; [reflexivity|].
  destruct (split_space_cons s) as (word & words & Hs).
  rewrite Hs in IH. cbn [spaced Nat.eqb join foldr] in IH.
  rewrite spaced_succ in IH.
  cbn [Js.split_space]. destruct (Ascii.eqb_spec c " ") as [->|Hc].
  - rewrite Hs. cbn [spaced Nat.eqb join foldr]. rewrite !spaced_succ.
    cbn [map foldr]. rewrite append_nil_l, append_assoc.
    unfold join in IH. rewrite IH. reflexivity.
  - rewrite Hs. cbn [spaced Nat.eqb join foldr]. rewrite spaced_succ.
    rewrite append_cons. unfold join in IH. by rewrite IH.
Qed.

Lemma mock_loop_run w messageId sid words : forall i acc f,
  mock_loop w messageId sid words i acc f =
  (Return (acc +:+ join (spaced words i)),
   {| conversations := conversations f;
      triggers := triggers f ++
        chunk_triggers w ("chat-" +:+ sid) messageId (spaced words i)
          acc (length (triggers f)) (ticks f);
      ticks := (length (spaced words i) + ticks f)%nat;
      sessionId := sessionId f |}).
Proof.
  induction words as [|word words IH]; intros i acc f.
  - cbn. rewrite append_nil_r, app_nil_r. by destruct f.
  - cbn [mock_loop].
    erewrite bind_run by reflexivity.
    erewrite bind_run by apply sendPusherEvent_run.
    rewrite IH.
    cbn [with_trigger conversations triggers ticks sessionId spaced join
         foldr chunk_triggers length].
    rewrite <- app_assoc, length_app, append_assoc. cbn [length app].
    rewrite Nat.add_1_r, Nat.add_succ_r. reflexivity.
Qed.

Lemma generateMockResponse_run w message messageId sid f :
  generateMockResponse w message messageId sid f =
  (Return (mockResponse message),
   {| conversations := conversations f;
      triggers := triggers f ++
        chunk_triggers w ("chat-" +:+ sid) messageId
          (spaced (Js.split_space (mockResponse message)) 0)
          EmptyString (length (triggers f)) (ticks f);
      ticks := (length (spaced (Js.split_space (mockResponse message)) 0)
                + ticks f)%nat;
      sessionId := sessionId f |}).
Proof.
  unfold generateMockResponse. rewrite mock_loop_run.
  by rewrite append_nil_l, join_spaced_split.
Qed.

Lemma relay_stream_run w client history messageId sid f :
  relay_stream w client history messageId sid f =
  (match failure (client history) with
   | Some e => Throw e
   | None => Return (join (deltas (client history)))
   end,
   {| conversations := conversations f;
      triggers := triggers f ++
        chunk_triggers w ("chat-" +:+ sid) messageId
          (nonempty_units (deltas (client history)))
          EmptyString (length (triggers f)) (ticks f);
      ticks := (length (nonempty_units (deltas (client history)))
                + ticks f)%nat;
      sessionId := sessionId f |}).
Proof.
  unfold relay_stream.
  erewrite bind_run by apply stream_loop_run.
  rewrite append_nil_l. by destruct (failure (client history)).
Qed.

(* ===================================================================== *)
(** ** Running the handler *)
(* ===================================================================== *)

Lemma POST_stream_succeeds w message messageId sid history T f :
  StreamSucceeds w message history T ->
  POST_stream w message messageId sid history f =
  (Return (inr T), relayed w message messageId sid history f).
Proof.
  unfold StreamSucceeds, POST_stream, relayed, stream_chunks, channel_of.
  destruct (mock_mode w).
  - intros ->. erewrite bind_run by apply generateMockResponse_run.
    reflexivity.
  - intros (client & -> & Hnone & ->). unfold try_catch.
    erewrite bind_run; [reflexivity|].
    rewrite relay_stream_run, Hnone. reflexivity.
Qed.

Lemma POST_stream_fails w message messageId sid history e f :
  StreamFails w history e ->
  POST_stream w message messageId sid history f =
  (Return (inl {| status := ei_status (handleOpenAIError e);
                  body := ErrorResponse (ei_message (handleOpenAIError e))
                            (details_of w (exn_string e))
                            (Some (ei_code (handleOpenAIError e))) |}),
   with_trigger w (channel_of sid) "service-error"
     (PusherError (ei_message (handleOpenAIError e))
        (toISOString w
           (length (stream_chunks w message history) + ticks f))
        None (Some (ei_code (handleOpenAIError e))))
     {| conversations := conversations f;
        triggers := triggers (relayed w message messageId sid history f);
        ticks := S (length (stream_chunks w message history) + ticks f);
        sessionId := sessionId f |}).
Proof.
  unfold StreamFails, POST_stream, relayed, stream_chunks, channel_of.
  intros (-> & client & -> & Hsome). unfold try_catch.
  erewrite bind_throw by (rewrite relay_stream_run, Hsome; reflexivity).
  erewrite bind_run by reflexivity.
  erewrite bind_run by apply sendPusherEvent_run.
  reflexivity.
Qed.

Lemma validated_not_null body vb :
  validateRequestBody body = Return vb -> body <> JNull.
Proof. by intros H ->. Qed.

Lemma history_resolved (store : gmap string (list ChatMessage)) vb :
  default []
    ((if negb (bool_decide (is_Some (store !! rb_sessionId vb)))
      then <[rb_sessionId vb := [system_turn]]> store
      else store) !! rb_sessionId vb) ++
  [{| role := user; content := rb_message vb |}]
  = history_of store vb.
Proof.
  unfold history_of, resolved.
  destruct (store !! rb_sessionId vb) as [h|] eqn:Hs.
  - rewrite bool_decide_eq_true_2 by eauto. cbn. by rewrite Hs.
  - rewrite bool_decide_eq_false_2 by (intros [? ?]; congruence). cbn.
    by rewrite lookup_insert_eq.
Qed.

Lemma seeded_insert (store : gmap string (list ChatMessage)) sid h :
  <[sid := h]>
    (if negb (bool_decide (is_Some (store !! sid)))
     then <[sid := [system_turn]]> store else store)
  = <[sid := h]> store.
Proof.
  destruct (negb _); [apply insert_insert_eq | reflexivity].
Qed.

Lemma history_lookup (store : gmap string (list ChatMessage)) sid h :
  default [] (<[sid := h]> store !! sid) = h.
Proof. by rewrite lookup_insert_eq. Qed.

Lemma seed_run (b : bool) sid v f :
  (if b then conversations_set sid v else mret tt) f =
  (Return tt,
   {| conversations :=
        if b then <[sid := v]> (conversations f) else conversations f;
      triggers := triggers f; ticks := ticks f;
      sessionId := sessionId f |}).
Proof. by destruct b, f. Qed.

(** Symbolic execution of one monadic step. *)
Ltac step :=
  erewrite bind_run by
    first [ apply sendPusherEvent_run | apply seed_run | reflexivity ].

(** Lines 286-326 of a validated request, up to the streaming step. *)
Ltac open_request Hjson Hvalid :=
  unfold POST_try, fresh_frame;
  erewrite bind_run by (unfold lift; rewrite Hjson; reflexivity);
  erewrite bind_run by
    (match goal with
     | |- context [match ?b with JNull => _ | _ => _ end] =>
         destruct b; [by apply validated_not_null in Hvalid | reflexivity ..]
     end);
  erewrite bind_run by (unfold lift; rewrite Hvalid; reflexivity);
  do 6 step;
  unfold with_trigger;
  cbn [conversations triggers ticks sessionId length app];
  change {| role := system; content := _ |} with system_turn;
  rewrite history_resolved, seeded_insert.

Lemma chunk_triggers_length w ch messageId chunks : forall acc n t,
  length (chunk_triggers w ch messageId chunks acc n t) = length chunks.
Proof.
  induction chunks as [|c chunks IH]; intros acc n t; [reflexivity|].
  cbn. by rewrite IH.
Qed.

Lemma POST_try_success w store body vb T :
  request_json w = Return body ->
  validateRequestBody body = Return vb ->
  StreamSucceeds w (rb_message vb) (history_of store vb) T ->
  Js.is_empty (Js.trim T) = false ->
  let chunks := stream_chunks w (rb_message vb) (history_of store vb) in
  POST_try w (fresh_frame store) =
  (Return {| status := 200;
             body := SuccessResponse true (fresh_messageId w) T |},
   {| conversations :=
        <[rb_sessionId vb :=
            history_of store vb ++ [{| role := assistant; content := T |}]]>
          store;
      triggers :=
        user_trigger w vb
        :: chunk_triggers w (channel_of (rb_sessionId vb))
             (fresh_messageId w) chunks EmptyString 1 1
        ++ [complete_trigger w (rb_sessionId vb) T (length chunks)];
      ticks := S (S (length chunks));
      sessionId := Some (rb_sessionId vb) |}).
Proof.
  intros Hjson Hvalid Hstream Hblank chunks.
  open_request Hjson Hvalid.
  erewrite bind_run by (apply POST_stream_succeeds, Hstream).
  cbn beta iota. rewrite Hblank.
  do 3 step.
  unfold with_trigger, relayed;
  cbn [conversations triggers ticks sessionId length app].
  rewrite history_lookup, insert_insert_eq, chunk_triggers_length.
  fold chunks. rewrite Nat.add_1_r. reflexivity.
Qed.

Lemma POST_try_blank w store body vb T :
  request_json w = Return body ->
  validateRequestBody body = Return vb ->
  StreamSucceeds w (rb_message vb) (history_of store vb) T ->
  Js.is_empty (Js.trim T) = true ->
  let chunks := stream_chunks w (rb_message vb) (history_of store vb) in
  POST_try w (fresh_frame store) =
  (Throw (Error "No response generated"),
   {| conversations := <[rb_sessionId vb := history_of store vb]> store;
      triggers :=
        user_trigger w vb
        :: chunk_triggers w (channel_of (rb_sessionId vb))
             (fresh_messageId w) chunks EmptyString 1 1;
      ticks := S (length chunks);
      sessionId := Some (rb_sessionId vb) |}).
Proof.
  intros Hjson Hvalid Hstream Hblank chunks.
  open_request Hjson Hvalid.
  erewrite bind_run by (apply POST_stream_succeeds, Hstream).
  cbn beta iota. rewrite Hblank.
  unfold throw, relayed;
  cbn [conversations triggers ticks sessionId length app].
  fold chunks. rewrite Nat.add_1_r. reflexivity.
Qed.

Lemma POST_try_stream_fails w store body vb e :
  request_json w = Return body ->
  validateRequestBody body = Return vb ->
  StreamFails w (history_of store vb) e ->
  let chunks := stream_chunks w (rb_message vb) (history_of store vb) in
  POST_try w (fresh_frame store) =
  (Return {| status := ei_status (handleOpenAIError e);
             body := ErrorResponse (ei_message (handleOpenAIError e))
                       (details_of w (exn_string e))
                       (Some (ei_code (handleOpenAIError e))) |},
   {| conversations := <[rb_sessionId vb := history_of store vb]> store;
      triggers :=
        user_trigger w vb
        :: chunk_triggers w (channel_of (rb_sessionId vb))
             (fresh_messageId w) chunks EmptyString 1 1
        ++ [service_error_trigger w (rb_sessionId vb) e (length chunks)];
      ticks := S (S (length chunks));
      sessionId := Some (rb_sessionId vb) |}).
Proof.
  intros Hjson Hvalid Hstream chunks.
  open_request Hjson Hvalid.
  erewrite bind_run by (apply POST_stream_fails, Hstream).
  cbn beta iota.
  unfold mret, M_ret, with_trigger, relayed;
  cbn [conversations triggers ticks sessionId length app].
  rewrite chunk_triggers_length.
  fold chunks. rewrite Nat.add_1_r. reflexivity.
Qed.

Lemma POST_catch_unresolved w e f :
  sessionId f = None ->
  POST_catch w e f = (Return (error_response w e), f).
Proof.
  intros Hsid. unfold POST_catch, error_response.
  erewrite bind_run by reflexivity. rewrite Hsid.
  erewrite bind_run by reflexivity. fold (errorMessage_of e).
  by destruct (isValidationError (errorMessage_of e)).
Qed.

Lemma POST_catch_resolved w e f sid :
  sessionId f = Some sid ->
  Js.is_empty sid = false ->
  POST_catch w e f =
  (Return (error_response w e),
   with_trigger w (channel_of sid) "error"
     (PusherError
        (if isValidationError (errorMessage_of e) then errorMessage_of e
         else "Failed to process message")
        (toISOString w (ticks f))
        (details_of w (errorMessage_of e))
        (Some (if isValidationError (errorMessage_of e)
               then "VALIDATION_ERROR" else "PROCESSING_ERROR")))
     {| conversations := conversations f; triggers := triggers f;
        ticks := S (ticks f); sessionId := Some sid |}).
Proof.
  intros Hsid Hne. unfold POST_catch, error_response.
  erewrite bind_run by reflexivity. rewrite Hsid, Hne. cbn [negb].
  erewrite bind_run.
  2:{ erewrite bind_run by reflexivity. apply sendPusherEvent_run. }
  fold (errorMessage_of e). rewrite Hsid.
  destruct (isValidationError (errorMessage_of e)); reflexivity.
Qed.

Lemma serve_returned w store r f :
  POST_try w (fresh_frame store) = (Return r, f) ->
  serve w store = (Return r, conversations f, triggers f).
Proof.
  intros H. unfold serve, POST.
  erewrite bind_run by reflexivity. unfold try_catch.
  change {| conversations := _ |} with (fresh_frame store).
  by rewrite H.
Qed.

Lemma serve_caught w store e f :
  POST_try w (fresh_frame store) = (Throw e, f) ->
  serve w store =
  (fst (POST_catch w e f),
   conversations (snd (POST_catch w e f)),
   triggers (snd (POST_catch w e f))).
Proof.
  intros H. unfold serve, POST.
  erewrite bind_run by reflexivity. unfold try_catch.
  change {| conversations := _ |} with (fresh_frame store).
  rewrite H. by destruct (POST_catch w e f).
Qed.

(** Failures before the session is resolved: nothing is stored and nothing
    is published. *)
Lemma serve_parse_failure w store e :
  request_json w = Throw e ->
  serve w store = (Return (error_response w e), store, []).
Proof.
  intros Hjson.
  erewrite serve_caught.
  2:{ unfold POST_try. erewrite bind_throw; [reflexivity|].
      unfold lift. by rewrite Hjson. }
  by rewrite POST_catch_unresolved.
Qed.

Lemma serve_null_body w store :
  request_json w = Return JNull ->
  serve w store =
  (Return (error_response w (TypeError_null "message")), store, []).
Proof.
  intros Hjson.
  erewrite serve_caught.
  2:{ unfold POST_try.
      erewrite bind_run by (unfold lift; rewrite Hjson; reflexivity).
      erewrite bind_throw; reflexivity. }
  by rewrite POST_catch_unresolved.
Qed.

Lemma serve_invalid w store body e :
  request_json w = Return body ->
  body <> JNull ->
  validateRequestBody body = Throw e ->
  serve w store = (Return (error_response w e), store, []).
Proof.
  intros Hjson Hnull Hvalid.
  erewrite serve_caught.
  2:{ unfold POST_try.
      erewrite bind_run by (unfold lift; rewrite Hjson; reflexivity).
      erewrite bind_run by (by destruct body).
      erewrite bind_throw; [reflexivity|].
      unfold lift. by rewrite Hvalid. }
  by rewrite POST_catch_unresolved.
Qed.

(* ===================================================================== *)
(** ** The validator *)
(* ===================================================================== *)

Lemma is_empty_true s : Js.is_empty s = true <-> s = EmptyString.
Proof. destruct s; cbn; split; congruence. Qed.

Lemma is_empty_false s : Js.is_empty s = false <-> s <> EmptyString.
Proof. destruct s; cbn; split; congruence. Qed.

Lemma length_zero s : (String.length s =? 0)%nat = Js.is_empty s.
Proof. by destruct s. Qed.

(** What the validator does on a parsed object whose [message] is the
    string [m] and whose [sessionId] is the non-empty string [s]: only the
    blank rule and the length rule remain. *)
Lemma validateRequestBody_strings fields m s :
  lookup_field "message" fields = Some (JStr m) ->
  m <> EmptyString ->
  lookup_field "sessionId" fields = Some (JStr s) ->
  s <> EmptyString ->
  validateRequestBody (JObj fields) =
  if Js.is_empty (Js.trim m) then Throw (Error "Message cannot be empty")
  else if (4000 <? String.length m)%nat
       then Throw (Error "Message too long (max 4000 characters)")
       else Return {| rb_message := Js.trim m;
                      rb_sessionId := s;
                      rb_userId := default (JStr "anonymous")
                                     (lookup_field "userId" fields) |}.
Proof.
  intros Hm Hmne Hs Hsne. unfold validateRequestBody.
  cbn [truthy typeof_object negb orb get]. rewrite Hm, Hs.
  cbn [truthy typeof_string string_of].
  apply is_empty_false in Hmne, Hsne. rewrite Hmne, Hsne. cbn [negb orb].
  rewrite length_zero.
  by destruct (lookup_field "userId" fields).
Qed.

Ltac settle H :=
  cbn [truthy typeof_object typeof_string negb orb get] in H;
  rewrite ?orb_true_r in H; try discriminate H.

(** Every validated request came from a parsed object with a string
    [message] and a non-empty string [sessionId]. *)
Lemma validateRequestBody_inv body vb :
  validateRequestBody body = Return vb ->
  exists fields m,
    body = JObj fields /\
    lookup_field "message" fields = Some (JStr m) /\
    lookup_field "sessionId" fields = Some (JStr (rb_sessionId vb)) /\
    rb_sessionId vb <> EmptyString /\
    Js.is_empty (Js.trim m) = false /\
    (String.length m <= 4000)%nat /\
    rb_message vb = Js.trim m.
Proof.
  unfold validateRequestBody. intros H.
  destruct body as [|b|n|s0|items|fields]; settle H.
  destruct (lookup_field "message" fields) as [[|?|?|m|?|?]|] eqn:Hm;
    settle H.
  destruct (Js.is_empty m) eqn:Hme; settle H.
  destruct (lookup_field "sessionId" fields) as [[|?|?|s|?|?]|] eqn:Hs;
    settle H.
  destruct (Js.is_empty s) eqn:Hse; settle H.
  cbn [string_of] in H. rewrite length_zero in H.
  destruct (Js.is_empty (Js.trim m)) eqn:Ht; [discriminate H|].
  destruct (4000 <? String.length m)%nat eqn:Hlen; [discriminate H|].
  injection H as <-. cbn [rb_sessionId rb_message].
  exists fields, m. repeat split; try done.
  - by apply is_empty_false.
  - by apply Nat.ltb_ge.
Qed.

Lemma validated_sid_nonempty body vb :
  validateRequestBody body = Return vb ->
  Js.is_empty (rb_sessionId vb) = false.
Proof.
  intros H. apply validateRequestBody_inv in H
    as (? & ? & _ & _ & _ & Hne & _).
  by apply is_empty_false.
Qed.

(** The four messages of the validator are recognised by the outer
    [catch]; the other two errors the handler raises itself are not. *)
Lemma validation_messages_recognised :
  isValidationError "Request body must be an object" = true /\
  isValidationError "Message is required and must be a string" = true /\
  isValidationError "SessionId is required and must be a string" = true /\
  isValidationError "Message cannot be empty" = true /\
  isValidationError "Message too long (max 4000 characters)" = true /\
  isValidationError "No response generated" = false /\
  isValidationError "OpenAI not initialized" = false.
Proof. by vm_compute. Qed.

Lemma serve_validation_error w store body msg :
  request_json w = Return body ->
  body <> JNull ->
  validateRequestBody body = Throw (Error msg) ->
  isValidationError msg = true ->
  serve w store =
  (Return {| status := 400;
             body := ErrorResponse msg (details_of w msg)
                       (Some "VALIDATION_ERROR") |},
   store, []).
Proof.
  intros Hjson Hnull Hvalid Hrec.
  rewrite (serve_invalid w store body (Error msg)) by done.
  unfold error_response, errorMessage_of. cbn [instanceof_Error exn_message Error].
  by rewrite Hrec.
Qed.

(** ** C2 *)

(** C2, as the code has it: a body whose [message] is the empty string is
    rejected with HTTP 400 and errorCode VALIDATION_ERROR, nothing is
    stored and nothing is published; the error text is the one of the
    presence rule, "Message is required and must be a string", because the
    empty string is falsy and that rule comes first. *)
Theorem empty_message_rejected w store fields :
  request_json w = Return (JObj fields) ->
  lookup_field "message" fields = Some (JStr EmptyString) ->
  serve w store =
  (Return {| status := 400;
             body := ErrorResponse "Message is required and must be a string"
                       (details_of w "Message is required and must be a string")
                       (Some "VALIDATION_ERROR") |},
   store, []).
Proof.
  intros Hjson Hm.
  apply (serve_validation_error w store (JObj fields)); try done.
  unfold validateRequestBody. cbn [truthy typeof_object negb orb get].
  by rewrite Hm.
Qed.

Lemma empty_message_rejected_witness :
  serve (mock_world (Return (chat_body "" "s1"))) ∅ =
  (Return {| status := 400;
             body := ErrorResponse "Message is required and must be a string"
                       (Some "Message is required and must be a string")
                       (Some "VALIDATION_ERROR") |},
   ∅, []).
Proof.
  exact (empty_message_rejected (mock_world (Return (chat_body "" "s1"))) ∅
           [("message", JStr ""); ("sessionId", JStr "s1")]
           eq_refl eq_refl).
Defined.

(** C2, counterexample: for the body [{message: "", sessionId: "s1"}] in
    production the handler answers 400 / VALIDATION_ERROR with no broker
    call, but the error text is not "Message cannot be empty". *)
Lemma empty_message_error_text :
  serve (live_world (Return (chat_body "" "s1"))
           (fun _ => {| deltas := []; failure := None |})) ∅ =
  (Return {| status := 400;
             body := ErrorResponse "Message is required and must be a string"
                       None (Some "VALIDATION_ERROR") |},
   ∅, [])
  /\ "Message is required and must be a string" <> "Message cannot be empty".
Proof. split; [by vm_compute | discriminate]. Qed.

(** ** C3 *)

(** C3, counterexample: a message of 4000 letters and a trailing space has
    trimmed length 4000, yet the validator throws the length error and the
    handler answers 400 without touching the store. *)
Lemma padded_message_too_long :
  String.length (Js.trim padded_message) = 4000%nat /\
  too_long (validateRequestBody (chat_body padded_message "s1")) /\
  serve (mock_world (Return (chat_body padded_message "s1"))) ∅ =
  (Return {| status := 400;
             body := ErrorResponse "Message too long (max 4000 characters)"
                       (Some "Message too long (max 4000 characters)")
                       (Some "VALIDATION_ERROR") |},
   ∅, []).
Proof. unfold too_long. by vm_compute. Qed.

(** C3, as the code has it: the length rule is on the message as received,
    not trimmed.  For a body whose [message] is a non-empty string [m], the
    validator throws the length error exactly when the earlier rules pass
    ([sessionId] a non-empty string, [m] not blank) and [m] itself has more
    than 4000 code units; every message longer than 4000 code units is
    answered with HTTP 400 and VALIDATION_ERROR, with the store untouched
    and nothing published; and when the earlier rules pass, a message of at
    most 4000 code units is accepted and trimmed, whatever white space
    surrounds it. *)
Theorem length_rule_untrimmed w store fields m :
  request_json w = Return (JObj fields) ->
  lookup_field "message" fields = Some (JStr m) ->
  m <> EmptyString ->
  (too_long (validateRequestBody (JObj fields)) <->
     (exists s, lookup_field "sessionId" fields = Some (JStr s) /\
                s <> EmptyString) /\
     Js.trim m <> EmptyString /\
     (4000 < String.length m)%nat) /\
  ((4000 < String.length m)%nat ->
     exists text,
       serve w store =
       (Return {| status := 400;
                  body := ErrorResponse text (details_of w text)
                            (Some "VALIDATION_ERROR") |},
        store, [])) /\
  (forall s,
     lookup_field "sessionId" fields = Some (JStr s) ->
     s <> EmptyString ->
     Js.trim m <> EmptyString ->
     (String.length m <= 4000)%nat ->
     validateRequestBody (JObj fields) =
     Return {| rb_message := Js.trim m;
               rb_sessionId := s;
               rb_userId := default (JStr "anonymous")
                              (lookup_field "userId" fields) |}).
Proof.
  intros Hjson Hm Hmne.
  assert (Hcases :
    (exists s, lookup_field "sessionId" fields = Some (JStr s) /\
               s <> EmptyString) \/
    validateRequestBody (JObj fields) =
      Throw (Error "SessionId is required and must be a string")).
  { unfold validateRequestBody. cbn [truthy typeof_object negb orb get].
    rewrite Hm. cbn [truthy typeof_string].
    apply is_empty_false in Hmne as ->. cbn [negb orb].
    destruct (lookup_field "sessionId" fields) as [[|?|?|s|?|?]|];
      cbn [truthy typeof_string negb orb]; rewrite ?orb_true_r; auto.
    destruct s; cbn [Js.is_empty negb orb]; [auto|].
    left. eexists. split; [reflexivity | discriminate]. }
  split; [|split].
  - unfold too_long. destruct Hcases as [(s & Hs & Hsne)|Hthrow].
    + rewrite (validateRequestBody_strings fields m s) by done.
      destruct (Js.is_empty (Js.trim m)) eqn:Ht.
      * split; [discriminate|]. intros (_ & Hne & _).
        by apply is_empty_false in Hne; congruence.
      * destruct (4000 <? String.length m)%nat eqn:Hlen.
        -- split; [|done]. intros _. split; [by eauto|].
           split; [by apply is_empty_false | by apply Nat.ltb_lt].
        -- split; [discriminate|]. intros (_ & _ & Hlt).
           apply Nat.ltb_ge in Hlen. lia.
    + rewrite Hthrow. split; [discriminate|].
      intros ((s & Hs & Hsne) & _).
      rewrite (validateRequestBody_strings fields m s) in Hthrow by done.
      destruct (Js.is_empty (Js.trim m)); [discriminate|].
      destruct (4000 <? String.length m)%nat; discriminate.
  - intros Hlong.
    destruct Hcases as [(s & Hs & Hsne)|Hthrow].
    + pose proof (validateRequestBody_strings fields m s Hm Hmne Hs Hsne)
        as Hv.
      apply Nat.ltb_lt in Hlong. rewrite Hlong in Hv.
      destruct (Js.is_empty (Js.trim m)); eexists;
        apply (serve_validation_error w store (JObj fields));
        try done; by vm_compute.
    + eexists. apply (serve_validation_error w store (JObj fields));
        try done; by vm_compute.
  - intros s Hs Hsne Ht Hlen.
    rewrite (validateRequestBody_strings fields m s) by done.
    apply is_empty_false in Ht as ->.
    apply Nat.ltb_ge in Hlen as ->. reflexivity.
Qed.

Lemma length_rule_untrimmed_witness :
  exists text,
    serve (mock_world (Return (chat_body padded_message "s1"))) ∅ =
    (Return {| status := 400;
               body := ErrorResponse text (Some text)
                         (Some "VALIDATION_ERROR") |},
     ∅, []).
Proof.
  refine (proj1 (proj2 (length_rule_untrimmed
            (mock_world (Return (chat_body padded_message "s1"))) ∅
            [("message", JStr padded_message); ("sessionId", JStr "s1")]
            padded_message eq_refl eq_refl _)) _).
  - discriminate.
  - vm_compute. lia.
Defined.

(** ** C10 *)

(** A rejection whose message contains one of the four substrings is
    answered as a validation error, with the message of the rejection as
    the error text. *)
Lemma rejection_read_as_validation w store e :
  request_json w = Throw e ->
  isValidationError (errorMessage_of e) = true ->
  serve w store =
  (Return {| status := 400;
             body := ErrorResponse (errorMessage_of e)
                       (details_of w (errorMessage_of e))
                       (Some "VALIDATION_ERROR") |},
   store, []).
Proof.
  intros Hjson Hrec.
  rewrite (serve_parse_failure w store e Hjson).
  unfold error_response. by rewrite Hrec.
Qed.

(** C10: when [request.json()] rejects, the store is untouched and no
    broker call is made, the session identifier not being resolved yet.
    The answer follows the message the outer [catch] reads off the
    rejection: HTTP 500 with errorCode PROCESSING_ERROR and the text
    "Failed to process message" when that message contains none of
    "required", "must be", "cannot be empty" and "too long"; HTTP 400 with
    errorCode VALIDATION_ERROR and the message itself as the text when it
    contains one of them. *)
Theorem unparsable_body_answer w store e :
  request_json w = Throw e ->
  serve w store =
  (Return
     (if Js.includes (errorMessage_of e) "required" ||
         Js.includes (errorMessage_of e) "must be" ||
         Js.includes (errorMessage_of e) "cannot be empty" ||
         Js.includes (errorMessage_of e) "too long"
      then {| status := 400;
              body := ErrorResponse (errorMessage_of e)
                        (details_of w (errorMessage_of e))
                        (Some "VALIDATION_ERROR") |}
      else {| status := 500;
              body := ErrorResponse "Failed to process message"
                        (details_of w (errorMessage_of e))
                        (Some "PROCESSING_ERROR") |}),
   store, []).
Proof.
  intros Hjson.
  rewrite (serve_parse_failure w store e Hjson).
  unfold error_response, isValidationError.
  by destruct (_ || _).
Qed.

Lemma unparsable_body_answer_witness :
  serve (mock_world (Throw SyntaxError_html)) ∅ =
  (Return {| status := 500;
             body := ErrorResponse "Failed to process message"
                       (Some (exn_message SyntaxError_html))
                       (Some "PROCESSING_ERROR") |},
   ∅, []).
Proof.
  exact (unparsable_body_answer
           (mock_world (Throw SyntaxError_html)) ∅ SyntaxError_html
           eq_refl).
Defined.

(** C10, counterexample: the body [must be] cannot be parsed as JSON; the
    message of the rejection quotes it, so it contains "must be", and the
    handler in production answers 400 / VALIDATION_ERROR with the parser's
    message as the error text, not 500 / PROCESSING_ERROR.  Nothing is
    stored and nothing is published. *)
Lemma unparsable_body_read_as_validation :
  Js.includes (exn_message SyntaxError_must_be) "must be" = true /\
  serve (live_world (Throw SyntaxError_must_be)
           (fun _ => {| deltas := []; failure := None |})) ∅ =
  (Return {| status := 400;
             body := ErrorResponse (exn_message SyntaxError_must_be)
                       None (Some "VALIDATION_ERROR") |},
   ∅, []).
Proof. split; by vm_compute. Qed.

(** ** C4 *)

Lemma status_is_spec e n :
  reflect (exn_status e = Some n) (status_is e n).
Proof.
  unfold status_is. destruct (exn_status e) as [s|]; [|by constructor].
  destruct (Z.eqb_spec s n); constructor; congruence.
Qed.

Lemma code_is_spec e c :
  reflect (exn_code e = Some c) (code_is e c).
Proof.
  unfold code_is. destruct (exn_code e) as [s|]; [|by constructor].
  destruct (String.eqb_spec s c); constructor; congruence.
Qed.

Lemma handleOpenAIError_rule r e :
  Applies r e -> handleOpenAIError e = rule_info r.
Proof.
  intros Hr. unfold handleOpenAIError.
  destruct Hr as [e Hs Hc|e Hs Hc|e Hs|e Hs|e s Hs Hge|e Hno Hc|e Hno Hc1 Hc2].
  - destruct (status_is_spec e 429); [|done].
    by destruct (code_is_spec e "insufficient_quota").
  - destruct (status_is_spec e 429); [|done].
    by destruct (code_is_spec e "insufficient_quota").
  - destruct (status_is_spec e 429); [congruence|].
    by destruct (status_is_spec e 401).
  - destruct (status_is_spec e 429); [congruence|].
    destruct (status_is_spec e 401); [congruence|].
    by destruct (status_is_spec e 400).
  - destruct (status_is_spec e 429) as [E|_]; [rewrite Hs in E; injection E; lia|].
    destruct (status_is_spec e 401) as [E|_]; [rewrite Hs in E; injection E; lia|].
    destruct (status_is_spec e 400) as [E|_]; [rewrite Hs in E; injection E; lia|].
    rewrite Hs. by apply Z.leb_le in Hge as ->.
  - unfold no_status_rule in Hno.
    destruct (status_is_spec e 429) as [E|_]; [rewrite E in Hno; lia|].
    destruct (status_is_spec e 401) as [E|_]; [rewrite E in Hno; lia|].
    destruct (status_is_spec e 400) as [E|_]; [rewrite E in Hno; lia|].
    destruct (exn_status e) as [s|].
    + destruct (Z.leb_spec 500 s); [lia|].
      destruct (code_is_spec e "ENOTFOUND"); [done|].
      destruct (code_is_spec e "ECONNREFUSED"); [done|]. tauto.
    + destruct (code_is_spec e "ENOTFOUND"); [done|].
      destruct (code_is_spec e "ECONNREFUSED"); [done|]. tauto.
  - unfold no_status_rule in Hno.
    destruct (status_is_spec e 429) as [E|_]; [rewrite E in Hno; lia|].
    destruct (status_is_spec e 401) as [E|_]; [rewrite E in Hno; lia|].
    destruct (status_is_spec e 400) as [E|_]; [rewrite E in Hno; lia|].
    destruct (code_is_spec e "ENOTFOUND"); [done|].
    destruct (code_is_spec e "ECONNREFUSED"); [done|].
    destruct (exn_status e) as [s|]; [|done].
    by destruct (Z.leb_spec 500 s); [lia|].
Qed.

Lemma some_rule_applies e : exists r, Applies r e.
Proof.
  destruct (exn_status e) as [s|] eqn:Hs.
  - destruct (decide (s = 429)) as [->|].
    { destruct (decide (exn_code e = Some "insufficient_quota"));
        eauto using Applies. }
    destruct (decide (s = 401)) as [->|]; [eauto using Applies|].
    destruct (decide (s = 400)) as [->|]; [eauto using Applies|].
    destruct (decide (500 <= s)); [eauto using Applies|].
    assert (no_status_rule e) by (unfold no_status_rule; rewrite Hs; lia).
    destruct (decide (exn_code e = Some "ENOTFOUND")); [eauto using Applies|].
    destruct (decide (exn_code e = Some "ECONNREFUSED"));
      eauto using Applies.
  - assert (no_status_rule e) by (unfold no_status_rule; by rewrite Hs).
    destruct (decide (exn_code e = Some "ENOTFOUND")); [eauto using Applies|].
    destruct (decide (exn_code e = Some "ECONNREFUSED"));
      eauto using Applies.
Qed.

(** C4: the classifier is the table, read in order.  Some rule applies to
    every thrown value; whichever rule applies, the classifier returns that
    rule's code and HTTP status together with that rule's message, a
    constant of the rule; so two thrown values classified under the same
    code get the same message, whatever their own message, type or
    rendering. *)
Theorem handleOpenAIError_table e :
  (exists r, Applies r e) /\
  (forall r, Applies r e ->
     ei_code (handleOpenAIError e) = rule_code r /\
     ei_status (handleOpenAIError e) = rule_status r /\
     ei_message (handleOpenAIError e) = rule_message r) /\
  (forall e',
     ei_code (handleOpenAIError e') = ei_code (handleOpenAIError e) ->
     ei_message (handleOpenAIError e') = ei_message (handleOpenAIError e)).
Proof.
  split; [apply some_rule_applies|]. split.
  - intros r Hr. by rewrite (handleOpenAIError_rule r e Hr).
  - intros e' Hcode.
    destruct (some_rule_applies e) as [r Hr].
    destruct (some_rule_applies e') as [r' Hr'].
    rewrite (handleOpenAIError_rule r e Hr) in *.
    rewrite (handleOpenAIError_rule r' e' Hr') in *.
    by destruct r, r'.
Qed.

Lemma handleOpenAIError_table_witness :
  ei_code (handleOpenAIError quota_error) = "QUOTA_EXCEEDED" /\
  ei_status (handleOpenAIError quota_error) = 429 /\
  ei_message (handleOpenAIError quota_error) = "OpenAI API quota exceeded.".
Proof.
  exact (proj1 (proj2 (handleOpenAIError_table quota_error)) Quota
           (Applies_quota quota_error eq_refl eq_refl)).
Defined.

(** ** C6 *)

Lemma chunk_triggers_events w ch messageId chunks : forall acc n t,
  Forall (fun c => channel c = ch /\ event c = "assistant-message-chunk"
                   /\ isComplete_of (data c) = Some false)
    (chunk_triggers w ch messageId chunks acc n t).
Proof.
  induction chunks as [|c chunks IH]; intros acc n t; cbn; constructor.
  - done.
  - apply IH.
Qed.

Lemma filter_event_chunks name w ch messageId chunks acc n t :
  name <> "assistant-message-chunk" ->
  filter (fun c => event_is name c = true)
    (chunk_triggers w ch messageId chunks acc n t) = [].
Proof.
  intros Hname. revert acc n t.
  induction chunks as [|c chunks IH]; intros acc n t; [reflexivity|].
  cbn [chunk_triggers]. rewrite filter_cons_False; [apply IH|].
  unfold event_is. cbn [event].
  rewrite (proj2 (String.eqb_neq _ _)); [discriminate|congruence].
Qed.

(** C6: on the model-backed path, when the call to the model fails with
    [e] (after any number of relayed chunks, none included), the handler
    answers with the status, message and code of [handleOpenAIError e];
    its broker calls are the user message, the chunks relayed so far and,
    last, exactly one [service-error] carrying the classified message and
    code; the session keeps the user turn and gets no assistant turn. *)
Theorem model_failure_reported w store body vb e :
  request_json w = Return body ->
  validateRequestBody body = Return vb ->
  StreamFails w (history_of store vb) e ->
  let sid := rb_sessionId vb in
  let info := handleOpenAIError e in
  exists chunk_calls n timestamp,
    serve w store =
    (Return {| status := ei_status info;
               body := ErrorResponse (ei_message info)
                         (details_of w (exn_string e))
                         (Some (ei_code info)) |},
     <[sid := resolved store sid ++
              [{| role := user; content := rb_message vb |}]]> store,
     user_trigger w vb :: chunk_calls ++
     [{| channel := channel_of sid;
         event := "service-error";
         data := PusherError (ei_message info) timestamp None
                   (Some (ei_code info));
         delivered := bool_decide (trigger_failure w n = None) |}]) /\
    Forall (fun c => event c = "assistant-message-chunk") chunk_calls /\
    length
      (filter (fun c => event_is "service-error" c = true)
         (snd (serve w store))) = 1%nat.
Proof.
  intros Hjson Hvalid Hfail sid info.
  pose proof (POST_try_stream_fails w store body vb e Hjson Hvalid Hfail)
    as Hrun. cbn zeta in Hrun.
  rewrite (serve_returned _ _ _ _ Hrun).
  cbn [conversations triggers snd].
  eexists _, _, _. split; [reflexivity|]. split.
  - eapply Forall_impl; [apply chunk_triggers_events|]. by intros c (_ & ? & _).
  - rewrite filter_cons_False by (by vm_compute).
    rewrite filter_app, filter_event_chunks by discriminate.
    reflexivity.
Qed.

Lemma model_failure_reported_witness :
  let w := live_world (Return (chat_body "hello" "s1")) breaking_client in
  exists chunk_calls n timestamp,
    serve w ∅ =
    (Return {| status := 503;
               body := ErrorResponse
                         "OpenAI service is currently unavailable. Please try again later."
                         None (Some "SERVICE_UNAVAILABLE") |},
     <["s1" := [system_turn; {| role := user; content := "hello" |}]]> ∅,
     user_trigger w hello_request :: chunk_calls ++
     [{| channel := "chat-s1";
         event := "service-error";
         data := PusherError
                   "OpenAI service is currently unavailable. Please try again later."
                   timestamp None (Some "SERVICE_UNAVAILABLE");
         delivered := bool_decide (trigger_failure w n = None) |}]) /\
    Forall (fun c => event c = "assistant-message-chunk") chunk_calls /\
    length
      (filter (fun c => event_is "service-error" c = true)
         (snd (serve w ∅))) = 1%nat.
Proof.
  exact (model_failure_reported
           (live_world (Return (chat_body "hello" "s1")) breaking_client)
           ∅ (chat_body "hello" "s1") hello_request unavailable_error
           eq_refl eq_refl
           (conj eq_refl
              (ex_intro _ breaking_client (conj eq_refl eq_refl)))).
Defined.

(** ** C7 *)

(** C7: when the streaming step completes with a final text that is empty
    or only white space, the handler answers HTTP 500 with errorCode
    PROCESSING_ERROR (the error raised being "No response generated",
    shown as [details] in development only); the session keeps the user
    turn and gets no assistant turn; and the last broker call is an
    [error] event on the session's channel, after the user message and the
    chunks already relayed. *)
Theorem blank_response_is_processing_error w store body vb T :
  request_json w = Return body ->
  validateRequestBody body = Return vb ->
  StreamSucceeds w (rb_message vb) (history_of store vb) T ->
  Js.trim T = EmptyString ->
  let sid := rb_sessionId vb in
  exists chunk_calls n timestamp,
    serve w store =
    (Return {| status := 500;
               body := ErrorResponse "Failed to process message"
                         (details_of w "No response generated")
                         (Some "PROCESSING_ERROR") |},
     <[sid := resolved store sid ++
              [{| role := user; content := rb_message vb |}]]> store,
     user_trigger w vb :: chunk_calls ++
     [{| channel := channel_of sid;
         event := "error";
         data := PusherError "Failed to process message" timestamp
                   (details_of w "No response generated")
                   (Some "PROCESSING_ERROR");
         delivered := bool_decide (trigger_failure w n = None) |}]) /\
    Forall (fun c => event c = "assistant-message-chunk") chunk_calls.
Proof.
  intros Hjson Hvalid Hstream Hblank sid.
  apply is_empty_true in Hblank.
  pose proof (POST_try_blank w store body vb T Hjson Hvalid Hstream Hblank)
    as Hrun. cbn zeta in Hrun.
  rewrite (serve_caught _ _ _ _ Hrun).
  erewrite POST_catch_resolved;
    [|reflexivity|by apply (validated_sid_nonempty body)].
  unfold with_trigger. cbn [fst snd conversations triggers ticks app].
  eexists _, _, _. split; [reflexivity|].
  eapply Forall_impl; [apply chunk_triggers_events|]. by intros c (_ & ? & _).
Qed.

Lemma blank_response_witness :
  let w := live_world (Return (chat_body "hello" "s1")) blank_client in
  exists chunk_calls n timestamp,
    serve w ∅ =
    (Return {| status := 500;
               body := ErrorResponse "Failed to process message" None
                         (Some "PROCESSING_ERROR") |},
     <["s1" := [system_turn; {| role := user; content := "hello" |}]]> ∅,
     user_trigger w hello_request :: chunk_calls ++
     [{| channel := "chat-s1";
         event := "error";
         data := PusherError "Failed to process message" timestamp None
                   (Some "PROCESSING_ERROR");
         delivered := bool_decide (trigger_failure w n = None) |}]) /\
    Forall (fun c => event c = "assistant-message-chunk") chunk_calls.
Proof.
  exact (blank_response_is_processing_error
           (live_world (Return (chat_body "hello" "s1")) blank_client)
           ∅ (chat_body "hello" "s1") hello_request " "
           eq_refl eq_refl
           (ex_intro _ blank_client (conj eq_refl (conj eq_refl eq_refl)))
           eq_refl).
Defined.

(** ** C1 *)

Lemma trim_empty : Js.trim EmptyString = EmptyString.
Proof. reflexivity. Qed.

Lemma ValidRequest_validated w m s :
  ValidRequest w m s ->
  exists body userId,
    request_json w = Return body /\
    validateRequestBody body =
    Return {| rb_message := Js.trim m; rb_sessionId := s;
              rb_userId := userId |}.
Proof.
  intros (fields & Hjson & Hm & Hs & Hsne & Ht & Hlen).
  exists (JObj fields), (default (JStr "anonymous")
                           (lookup_field "userId" fields)).
  split; [done|].
  rewrite (validateRequestBody_strings fields m s); try done.
  - apply is_empty_false in Ht as ->.
    by apply Nat.ltb_ge in Hlen as ->.
  - intros ->. by apply Ht.
Qed.

Lemma serve_success w store m s T :
  ValidRequest w m s ->
  StreamSucceeds w (Js.trim m) (resolved store s ++ [user_turn m]) T ->
  Js.trim T <> EmptyString ->
  exists calls,
    serve w store =
    (Return {| status := 200;
               body := SuccessResponse true (fresh_messageId w) T |},
     <[s := resolved store s ++ [user_turn m; assistant_turn T]]> store,
     calls).
Proof.
  intros Hreq Hstream HT.
  destruct (ValidRequest_validated w m s Hreq) as (body & uid & Hjson & Hv).
  apply is_empty_false in HT.
  pose proof (POST_try_success w store body _ T Hjson Hv Hstream HT) as Hrun.
  cbn zeta in Hrun. rewrite (serve_returned _ _ _ _ Hrun).
  cbn [conversations triggers rb_sessionId rb_message].
  eexists. unfold history_of. cbn [rb_sessionId rb_message].
  by rewrite <- app_assoc.
Qed.

(** C1, as the code has it: a request is valid when its message has at most
    4000 code units as received and is not blank, and its sessionId is a
    non-empty string.  If then the streaming step succeeds with a final
    text [T] that is not blank, the handler answers HTTP 200 with
    [{success: true, messageId, message: T}] and the session's conversation
    grows by exactly the user turn (the trimmed message) followed by the
    assistant turn [T].  Consequently a second such request on the same,
    initially unknown, session leaves the five turns system, user1,
    assistant1, user2, assistant2 in that order. *)
Theorem successful_request_appends w store m s T :
  ValidRequest w m s ->
  StreamSucceeds w (Js.trim m) (resolved store s ++ [user_turn m]) T ->
  Js.trim T <> EmptyString ->
  exists calls,
    serve w store =
    (Return {| status := 200;
               body := SuccessResponse true (fresh_messageId w) T |},
     <[s := resolved store s ++ [user_turn m; assistant_turn T]]> store,
     calls) /\
    forall w2 m2 T2,
      store !! s = None ->
      ValidRequest w2 m2 s ->
      StreamSucceeds w2 (Js.trim m2)
        [system_turn; user_turn m; assistant_turn T; user_turn m2] T2 ->
      Js.trim T2 <> EmptyString ->
      exists calls2 store2,
        serve w2
          (<[s := resolved store s ++ [user_turn m; assistant_turn T]]> store)
        = (Return {| status := 200;
                     body := SuccessResponse true (fresh_messageId w2) T2 |},
           store2, calls2) /\
        store2 !! s =
        Some [system_turn; user_turn m; assistant_turn T;
              user_turn m2; assistant_turn T2].
Proof.
  intros Hreq Hstream HT.
  destruct (serve_success w store m s T Hreq Hstream HT) as [calls Hrun].
  exists calls. split; [exact Hrun|].
  intros w2 m2 T2 Hnew Hreq2 Hstream2 HT2.
  set (store1 := <[s := resolved store s ++
                         [user_turn m; assistant_turn T]]> store).
  assert (Hres : resolved store1 s
                 = [system_turn; user_turn m; assistant_turn T]).
  { unfold store1, resolved. by rewrite lookup_insert_eq, Hnew. }
  destruct (serve_success w2 store1 m2 s T2 Hreq2) as [calls2 Hrun2];
    [by rewrite Hres|done|].
  eexists calls2, _. split; [exact Hrun2|].
  by rewrite lookup_insert_eq, Hres.
Qed.

Lemma successful_request_witness :
  exists calls,
    serve (mock_world (Return (chat_body " hello " "s1"))) ∅ =
    (Return {| status := 200;
               body := SuccessResponse true "msg_1714564800000_k3x9q2m7c"
                         (mockResponse "hello") |},
     <["s1" := [system_turn; user_turn " hello ";
                assistant_turn (mockResponse "hello")]]> ∅,
     calls) /\
    exists calls2 store2,
      serve (mock_world (Return (chat_body "run a test" "s1")))
        (<["s1" := [system_turn; user_turn " hello ";
                    assistant_turn (mockResponse "hello")]]> ∅)
      = (Return {| status := 200;
                   body := SuccessResponse true "msg_1714564800000_k3x9q2m7c"
                             (mockResponse "run a test") |},
         store2, calls2) /\
      store2 !! "s1" =
      Some [system_turn; user_turn " hello ";
            assistant_turn (mockResponse "hello");
            user_turn "run a test";
            assistant_turn (mockResponse "run a test")].
Proof.
  assert (Hreq : forall m, Js.trim m <> EmptyString ->
                 (String.length m <= 4000)%nat ->
                 ValidRequest (mock_world (Return (chat_body m "s1"))) m "s1").
  { intros m Ht Hlen. eexists. repeat split; try reflexivity; done. }
  destruct (successful_request_appends
              (mock_world (Return (chat_body " hello " "s1"))) ∅
              " hello " "s1" (mockResponse "hello"))
    as (calls & Hrun & Hnext).
  - apply Hreq; [discriminate | cbn; lia].
  - reflexivity.
  - discriminate.
  - exists calls. split; [exact Hrun|].
    apply (Hnext (mock_world (Return (chat_body "run a test" "s1")))
             "run a test" (mockResponse "run a test")).
    + reflexivity.
    + apply Hreq; [discriminate | cbn; lia].
    + reflexivity.
    + discriminate.
Defined.

(** C1, counterexample: the message of 4000 letters and a trailing space
    has trimmed length 4000 and the session identifier is non-empty; in
    mock mode, where streaming cannot fail, the handler still answers 400
    and appends no turn. *)
Lemma padded_message_not_served :
  (1 <= String.length (Js.trim padded_message) <= 4000)%nat /\
  serve (mock_world (Return (chat_body padded_message "s1"))) ∅ =
  (Return {| status := 400;
             body := ErrorResponse "Message too long (max 4000 characters)"
                       (Some "Message too long (max 4000 characters)")
                       (Some "VALIDATION_ERROR") |},
   ∅, []).
Proof. split; [vm_compute; lia | by vm_compute]. Qed.

(** ** C5 *)

Lemma join_nonempty_units units : join (nonempty_units units) = join units.
Proof.
  induction units as [|u units IH]; [reflexivity|].
  unfold nonempty_units. destruct u as [|c u].
  - rewrite filter_cons_False by done. exact IH.
  - rewrite filter_cons_True by done. cbn [join foldr].
    unfold join, nonempty_units in IH. by rewrite IH.
Qed.

Lemma stream_chunks_join w message history T :
  StreamSucceeds w message history T ->
  join (stream_chunks w message history) = T.
Proof.
  unfold StreamSucceeds, stream_chunks. destruct (mock_mode w).
  - intros ->. apply join_spaced_split.
  - intros (client & -> & _ & ->). apply join_nonempty_units.
Qed.

Lemma chunk_triggers_chain w ch messageId chunks : forall acc n t,
  ChunkChain acc (map data (chunk_triggers w ch messageId chunks acc n t))
    (acc +:+ join chunks).
Proof.
  induction chunks as [|c chunks IH]; intros acc n t.
  - cbn. rewrite append_nil_r. constructor.
  - cbn [chunk_triggers map data join foldr]. constructor.
    rewrite <- append_assoc. apply IH.
Qed.

Lemma ChunkChain_last prev ds final :
  ChunkChain prev ds final -> ds <> [] ->
  exists messageId chunk timestamp,
    last ds = Some (PusherAssistantChunk messageId final chunk timestamp false).
Proof.
  induction 1 as [prev|prev messageId chunk timestamp rest final Hrest IH];
    [done|]. intros _.
  destruct rest as [|d rest].
  - inversion Hrest; subst. cbn. eauto.
  - destruct IH as (i & c & t & Hlast); [done|].
    exists i, c, t. by rewrite last_cons, Hlast.
Qed.

Lemma filter_completes_chunks w ch messageId chunks : forall acc n t,
  filter (fun c => completes c = true)
    (chunk_triggers w ch messageId chunks acc n t) = [].
Proof.
  induction chunks as [|c chunks IH]; intros acc n t; [reflexivity|].
  cbn [chunk_triggers]. rewrite filter_cons_False by (by vm_compute).
  apply IH.
Qed.

(** C5, as the code has it: when the request is valid and the streaming
    step succeeds with a final text [T] that is not blank, the broker calls
    are the user message, then the chunk events, then one
    [assistant-message-complete].  Each chunk event has
    [isComplete = false] and a [content] equal to the previous content
    followed by its own [chunk], starting from the empty text; the last
    chunk's content is [T]; and the only call with [isComplete = true] is
    the final one, whose content is [T]. *)
Theorem chunks_accumulate w store body vb T :
  request_json w = Return body ->
  validateRequestBody body = Return vb ->
  StreamSucceeds w (rb_message vb) (history_of store vb) T ->
  Js.trim T <> EmptyString ->
  exists chunk_calls complete,
    snd (serve w store) = user_trigger w vb :: chunk_calls ++ [complete] /\
    Forall (fun c => event c = "assistant-message-chunk" /\
                     isComplete_of (data c) = Some false) chunk_calls /\
    ChunkChain EmptyString (map data chunk_calls) T /\
    (exists messageId chunk timestamp,
       last (map data chunk_calls) =
       Some (PusherAssistantChunk messageId T chunk timestamp false)) /\
    event complete = "assistant-message-complete" /\
    (exists timestamp,
       data complete =
       PusherAssistantComplete (fresh_messageId w) T timestamp true) /\
    filter (fun c => completes c = true) (snd (serve w store)) = [complete].
Proof.
  intros Hjson Hvalid Hstream HT.
  pose proof (stream_chunks_join _ _ _ _ Hstream) as Hjoin.
  assert (Hne : stream_chunks w (rb_message vb) (history_of store vb) <> []).
  { intros Hnil. rewrite Hnil in Hjoin. cbn in Hjoin. by subst T. }
  apply is_empty_false in HT.
  pose proof (POST_try_success w store body vb T Hjson Hvalid Hstream HT)
    as Hrun. cbn zeta in Hrun.
  rewrite (serve_returned _ _ _ _ Hrun). cbn [snd triggers].
  set (chunks := stream_chunks w (rb_message vb) (history_of store vb)) in *.
  pose proof (chunk_triggers_chain w (channel_of (rb_sessionId vb))
                (fresh_messageId w) chunks EmptyString 1 1) as Hchain.
  rewrite append_nil_l, Hjoin in Hchain.
  eexists _, _. split; [reflexivity|].
  split; [|split; [exact Hchain|split; [|split; [reflexivity|split]]]].
  - eapply Forall_impl; [apply chunk_triggers_events|].
    by intros c (_ & ? & ?).
  - apply (ChunkChain_last _ _ _ Hchain).
    destruct chunks; [done|discriminate].
  - by eexists.
  - rewrite filter_cons_False by (by vm_compute).
    rewrite filter_app, filter_completes_chunks.
    by rewrite filter_cons_True by (by vm_compute).
Qed.

Lemma chunks_accumulate_witness :
  let w := live_world (Return (chat_body "hello" "s1")) greeting_client in
  exists chunk_calls complete,
    snd (serve w ∅) = user_trigger w hello_request :: chunk_calls ++ [complete]
    /\
    Forall (fun c => event c = "assistant-message-chunk" /\
                     isComplete_of (data c) = Some false) chunk_calls /\
    ChunkChain EmptyString (map data chunk_calls) "Hi there" /\
    (exists messageId chunk timestamp,
       last (map data chunk_calls) =
       Some (PusherAssistantChunk messageId "Hi there" chunk timestamp false))
    /\
    event complete = "assistant-message-complete" /\
    (exists timestamp,
       data complete =
       PusherAssistantComplete (fresh_messageId w) "Hi there" timestamp true)
    /\
    filter (fun c => completes c = true) (snd (serve w ∅)) = [complete].
Proof.
  refine (chunks_accumulate
            (live_world (Return (chat_body "hello" "s1")) greeting_client)
            ∅ (chat_body "hello" "s1") hello_request "Hi there"
            eq_refl eq_refl
            (ex_intro _ greeting_client (conj eq_refl (conj eq_refl eq_refl)))
            _).
  discriminate.
Defined.

(** C5, counterexample: a stream that ends normally after the single unit
    [" "] is a successful stream with final text [" "]; its chunk is
    published, but the request then fails as "No response generated" and
    no call carries [isComplete = true]. *)
Lemma blank_stream_never_completes :
  let w := live_world (Return (chat_body "hello" "s1")) blank_client in
  StreamSucceeds w "hello"
    [system_turn; {| role := user; content := "hello" |}] " " /\
  map event (snd (serve w ∅)) =
    ["user-message"; "assistant-message-chunk"; "error"] /\
  filter (fun c => completes c = true) (snd (serve w ∅)) = [].
Proof.
  cbn zeta. split; [|split]; [|by vm_compute..].
  exists blank_client. by vm_compute.
Qed.

(** ** C9 *)

Lemma chunk_strings_chunk_triggers w ch messageId chunks : forall acc n t,
  chunk_strings (chunk_triggers w ch messageId chunks acc n t) = chunks.
Proof.
  induction chunks as [|c chunks IH]; intros acc n t; [reflexivity|].
  unfold chunk_strings in *. cbn. by rewrite IH.
Qed.

Lemma spaced_length words i : length (spaced words i) = length words.
Proof.
  revert i. induction words as [|word words IH]; intros i; [reflexivity|].
  cbn. by rewrite IH.
Qed.

(** C9, as the code has it: the mock generator never throws, and its final
    text and its chunk strings depend on the message alone: whatever the
    world, the identifiers and the frame of two runs, both return the
    canned reply and both publish the same chunks, one per piece of the
    reply between single space characters ([split(" ")]: adjacent spaces
    give an empty piece, other white space does not split), each piece
    after the first with a space in front.  The reply is chosen on the
    lower-cased message: the greeting when it contains "hello" or "hi";
    otherwise the test confirmation when it contains "test"; otherwise the
    status reply when it contains "how are you"; otherwise the echo of the
    message. *)
Theorem mock_is_deterministic w1 w2 message id1 id2 sid1 sid2 f1 f2 :
  let reply := mockResponse message in
  let lower := Js.toLowerCase message in
  (exists calls1 calls2 g1 g2,
     generateMockResponse w1 message id1 sid1 f1 = (Return reply, g1) /\
     generateMockResponse w2 message id2 sid2 f2 = (Return reply, g2) /\
     triggers g1 = triggers f1 ++ calls1 /\
     triggers g2 = triggers f2 ++ calls2 /\
     length calls1 = length (Js.split_space reply) /\
     chunk_strings calls1 = spaced (Js.split_space reply) 0 /\
     chunk_strings calls2 = chunk_strings calls1) /\
  (Js.includes lower "hello" = true \/ Js.includes lower "hi" = true ->
   reply =
   "Hello! This is a mock response. Your API is working correctly! How can I help you today?")
  /\
  (Js.includes lower "hello" = false -> Js.includes lower "hi" = false ->
   Js.includes lower "test" = true ->
   reply =
   "This is a test response. Your streaming API, Pusher integration, and error handling are all functioning properly.")
  /\
  (Js.includes lower "hello" = false -> Js.includes lower "hi" = false ->
   Js.includes lower "test" = false ->
   Js.includes lower "how are you" = true ->
   reply =
   "I'm doing well, thank you! This is a simulated response while you're in development mode.")
  /\
  (Js.includes lower "hello" = false -> Js.includes lower "hi" = false ->
   Js.includes lower "test" = false ->
   Js.includes lower "how are you" = false ->
   reply =
   "You said: " +:+ String "034"%char message +:+
   String "034"%char ". This is a mock AI response to test your chat API. Everything is working correctly!").
Proof.
  cbn zeta. split.
  - eexists _, _, _, _.
    split; [apply generateMockResponse_run|].
    split; [apply generateMockResponse_run|].
    cbn [triggers]. split; [reflexivity|]. split; [reflexivity|].
    rewrite !chunk_strings_chunk_triggers, chunk_triggers_length.
    by rewrite spaced_length.
  - unfold mockResponse. repeat split.
    + by intros [-> | ->]; rewrite ?orb_true_r.
    + by intros -> -> ->.
    + by intros -> -> -> ->.
    + by intros -> -> -> ->.
Qed.

Lemma mock_is_deterministic_witness :
  mockResponse "Hello there" =
  "Hello! This is a mock response. Your API is working correctly! How can I help you today?".
Proof.
  exact (proj1 (proj2
           (mock_is_deterministic
              (mock_world (Return (chat_body "Hello there" "s1")))
              (live_world (Return (chat_body "Hello there" "s2"))
                 blank_client)
              "Hello there" "msg_1_x" "msg_2_y" "s1" "s2"
              (fresh_frame ∅) (fresh_frame ∅)))
           (or_introl eq_refl)).
Defined.

(** C9, counterexample: for the message [a  b] (two spaces) the echo reply
    has 19 words separated by white space, but the generator publishes 20
    chunks: the piece between the two spaces is empty and is published as
    the chunk [" "]. *)
Lemma adjacent_spaces_make_a_chunk :
  let published :=
    snd (mock_run (mock_world (Return (chat_body "a  b" "s1"))) "a  b") in
  let words := whitespace_words (mockResponse "a  b") in
  length words = 19%nat /\
  length published = 20%nat /\
  published !! 3%nat = Some " " /\
  published <> spaced words 0.
Proof. cbn zeta. repeat split; try by vm_compute. Qed.

(** ** C8 *)

Lemma agree_ret {A} (a : A) : agree (mret a) (mret a).
Proof. by intros f g H. Qed.

Lemma agree_throw {A} (e : Exn) : agree (@throw A e) (throw e).
Proof. by intros f g H. Qed.

Lemma agree_lift {A} (r : Result A) : agree (lift r) (lift r).
Proof. by intros f g H. Qed.

Lemma agree_bind {A B} (c d : M A) (k l : A -> M B) :
  agree c d -> (forall a, agree (k a) (l a)) -> agree (c ≫= k) (d ≫= l).
Proof.
  intros Hcd Hkl f g Hfg. unfold mbind, M_bind.
  destruct (Hcd f g Hfg) as [Hr Hs].
  destruct (c f) as [[a|e] f'], (d g) as [[b|e'] g']; cbn in Hr, Hs;
    try discriminate Hr.
  - injection Hr as <-. by apply Hkl.
  - by injection Hr as <-.
Qed.

Lemma agree_try_catch {A} (c d : M A) (h k : Exn -> M A) :
  agree c d -> (forall e, agree (h e) (k e)) ->
  agree (try_catch c h) (try_catch d k).
Proof.
  intros Hcd Hhk f g Hfg. unfold try_catch.
  destruct (Hcd f g Hfg) as [Hr Hs].
  destruct (c f) as [[a|e] f'], (d g) as [[b|e'] g']; cbn in Hr, Hs;
    try discriminate Hr.
  - by injection Hr as <-.
  - injection Hr as <-. by apply Hhk.
Qed.

Lemma agree_if {A} (b : bool) (c c' d d' : M A) :
  agree c d -> agree c' d' ->
  agree (if b then c else c') (if b then d else d').
Proof. by destruct b. Qed.

Lemma agree_assign_sessionId sid :
  agree (assign_sessionId sid) (assign_sessionId sid).
Proof. intros f g (? & ? & ? & ?). by repeat split. Qed.

Lemma agree_read_sessionId : agree read_sessionId read_sessionId.
Proof. intros f g (? & ? & ? & Hs). cbn. rewrite Hs. by repeat split. Qed.

Lemma agree_conversations_has k :
  agree (conversations_has k) (conversations_has k).
Proof. intros f g (Hc & ? & ? & ?). cbn. rewrite Hc. by repeat split. Qed.

Lemma agree_conversations_set k v :
  agree (conversations_set k v) (conversations_set k v).
Proof. intros f g (Hc & ? & ? & ?). cbn. rewrite Hc. by repeat split. Qed.

Lemma agree_conversationHistory_push k turn :
  agree (conversationHistory_push k turn) (conversationHistory_push k turn).
Proof. intros f g (Hc & ? & ? & ?). cbn. rewrite Hc. by repeat split. Qed.

Section Absorbed.

Variable w : World.
Variable fate : nat -> option Exn.

Let w' : World := with_trigger_failure w fate.

Lemma agree_now : agree (now w) (now w').
Proof.
  intros f g (? & ? & Ht & ?). cbn. rewrite Ht. by repeat split.
Qed.

Lemma agree_sendPusherEvent ch ev d :
  agree (sendPusherEvent w ch ev d) (sendPusherEvent w' ch ev d).
Proof.
  intros f g (? & Hcalls & ? & ?). rewrite !sendPusherEvent_run.
  split; [done|]. unfold with_trigger. repeat split; try done.
  cbn [snd triggers]. rewrite !map_app. by rewrite Hcalls.
Qed.

Lemma agree_mock_loop messageId sid words : forall i acc,
  agree (mock_loop w messageId sid words i acc)
        (mock_loop w' messageId sid words i acc).
Proof.
  induction words as [|word words IH]; intros i acc; cbn [mock_loop].
  - apply agree_ret.
  - apply agree_bind; [apply agree_now|]; intros timestamp.
    apply agree_bind; [apply agree_sendPusherEvent|]; intros _.
    apply IH.
Qed.

Lemma agree_stream_loop messageId sid units : forall acc,
  agree (stream_loop w messageId sid units acc)
        (stream_loop w' messageId sid units acc).
Proof.
  induction units as [|u units IH]; intros acc; cbn [stream_loop].
  - apply agree_ret.
  - apply agree_if; [|apply IH].
    apply agree_bind; [apply agree_now|]; intros timestamp.
    apply agree_bind; [apply agree_sendPusherEvent|]; intros _.
    apply IH.
Qed.

Lemma agree_POST_stream message messageId sid history :
  agree (POST_stream w message messageId sid history)
        (POST_stream w' message messageId sid history).
Proof.
  unfold POST_stream. change (mock_mode w') with (mock_mode w).
  change (openai w') with (openai w).
  apply agree_if.
  - apply agree_bind; [apply agree_mock_loop|]. intros a. apply agree_ret.
  - destruct (openai w) as [client|]; [|apply agree_throw].
    apply agree_try_catch.
    + apply agree_bind; [|intros a; apply agree_ret].
      unfold relay_stream.
      apply agree_bind; [apply agree_stream_loop|]; intros a.
      destruct (failure _); [apply agree_throw | apply agree_ret].
    + intros e.
      apply agree_bind; [apply agree_now|]; intros timestamp.
      apply agree_bind; [apply agree_sendPusherEvent|]; intros _.
      apply agree_ret.
Qed.

Lemma agree_POST_try : agree (POST_try w) (POST_try w').
Proof.
  unfold POST_try. change (request_json w') with (request_json w).
  change (Date_now w') with (Date_now w).
  change (Math_random w') with (Math_random w).
  apply agree_bind; [apply agree_lift|]; intros body.
  apply agree_bind; [destruct body; apply agree_throw || apply agree_ret|].
  intros _.
  apply agree_bind; [apply agree_lift|]; intros vb.
  apply agree_bind; [apply agree_assign_sessionId|]; intros _.
  apply agree_bind; [apply agree_conversations_has|]; intros known.
  apply agree_bind;
    [apply agree_if; [apply agree_conversations_set | apply agree_ret]|].
  intros _.
  apply agree_bind; [apply agree_conversationHistory_push|]; intros history.
  apply agree_bind; [apply agree_now|]; intros timestamp.
  apply agree_bind; [apply agree_sendPusherEvent|]; intros _.
  apply agree_bind; [apply agree_POST_stream|]; intros [response|text].
  - apply agree_ret.
  - apply agree_if; [apply agree_throw|].
    apply agree_bind; [apply agree_conversationHistory_push|]; intros _.
    apply agree_bind; [apply agree_now|]; intros timestamp'.
    apply agree_bind; [apply agree_sendPusherEvent|]; intros _.
    apply agree_ret.
Qed.

Lemma agree_POST_catch e : agree (POST_catch w e) (POST_catch w' e).
Proof.
  unfold POST_catch.
  apply agree_bind; [apply agree_read_sessionId|]; intros sid.
  apply agree_bind; [|intros _; apply agree_ret].
  destruct sid as [sid|]; [|apply agree_ret].
  apply agree_if; [|apply agree_ret].
  apply agree_bind; [apply agree_now|]; intros timestamp.
  apply agree_sendPusherEvent.
Qed.

Lemma agree_POST : agree (POST w) (POST w').
Proof.
  unfold POST.
  apply agree_bind; [apply agree_assign_sessionId|]; intros _.
  apply agree_try_catch; [apply agree_POST_try|apply agree_POST_catch].
Qed.

End Absorbed.

Lemma alike_refl f : alike f f.
Proof. by repeat split. Qed.

(** C8: publishing is best effort.  [sendPusherEvent] completes normally
    whatever the broker does, leaving the conversations as they were; and
    a request served in two worlds that differ only in the fate of each
    broker call gets the same response (status and body), leaves the same
    store, and asks the same calls of the broker in the same order. *)
Theorem publishing_is_absorbed :
  (forall w ch ev d f,
     exists g, sendPusherEvent w ch ev d f = (Return tt, g) /\
               conversations g = conversations f) /\
  (forall w fate store,
     fst (fst (serve w store)) =
       fst (fst (serve (with_trigger_failure w fate) store)) /\
     snd (fst (serve w store)) =
       snd (fst (serve (with_trigger_failure w fate) store)) /\
     map attempt (snd (serve w store)) =
       map attempt (snd (serve (with_trigger_failure w fate) store))).
Proof.
  split.
  - intros w ch ev d f. eexists. split; [apply sendPusherEvent_run|done].
  - intros w fate store. unfold serve.
    destruct (agree_POST w fate (fresh_frame store) (fresh_frame store)
                (alike_refl _)) as (Hr & Hc & Ht & _).
    unfold fresh_frame in *.
    destruct (POST w _) as [r f], (POST (with_trigger_failure w fate) _)
      as [r' f'].
    by cbn in *.
Qed.

(* ===================================================================== *)
(** ** Every way a request can go *)
(* ===================================================================== *)

Lemma POST_stream_no_client w message messageId sid history f :
  mock_mode w = false ->
  openai w = None ->
  POST_stream w message messageId sid history f =
  (Throw (Error "OpenAI not initialized"), f).
Proof. intros Hmock Hnone. unfold POST_stream. by rewrite Hmock, Hnone. Qed.

Lemma POST_try_no_client w store body vb :
  request_json w = Return body ->
  validateRequestBody body = Return vb ->
  mock_mode w = false ->
  openai w = None ->
  POST_try w (fresh_frame store) =
  (Throw (Error "OpenAI not initialized"),
   {| conversations := <[rb_sessionId vb := history_of store vb]> store;
      triggers := [user_trigger w vb];
      ticks := 1;
      sessionId := Some (rb_sessionId vb) |}).
Proof.
  intros Hjson Hvalid Hmock Hnone.
  open_request Hjson Hvalid.
  erewrite bind_throw by (by apply POST_stream_no_client).
  reflexivity.
Qed.

Lemma serve_path w store p :
  Takes w store p -> serve w store = result_of w store p.
Proof.
  destruct p as [e|vb T|vb T|vb e|vb]; cbn [Takes result_of].
  - intros [Hjson|[[Hjson ->]|(body & Hjson & Hnull & Hthrow)]].
    + by apply serve_parse_failure.
    + by apply serve_null_body.
    + by apply (serve_invalid w store body).
  - intros ((body & Hjson & Hvalid) & Hstream & HT).
    pose proof (POST_try_success w store body vb T Hjson Hvalid Hstream HT)
      as Hrun. cbn zeta in Hrun.
    rewrite (serve_returned _ _ _ _ Hrun). cbn [conversations triggers].
    unfold chunk_calls. by rewrite chunk_triggers_length.
  - intros ((body & Hjson & Hvalid) & Hstream & HT).
    pose proof (POST_try_blank w store body vb T Hjson Hvalid Hstream HT)
      as Hrun. cbn zeta in Hrun.
    rewrite (serve_caught _ _ _ _ Hrun).
    erewrite POST_catch_resolved;
      [|reflexivity|by apply (validated_sid_nonempty body)].
    unfold with_trigger, chunk_calls, error_trigger.
    cbn [fst snd conversations triggers ticks app length].
    by rewrite !chunk_triggers_length.
  - intros ((body & Hjson & Hvalid) & Hfail).
    pose proof (POST_try_stream_fails w store body vb e Hjson Hvalid Hfail)
      as Hrun. cbn zeta in Hrun.
    rewrite (serve_returned _ _ _ _ Hrun). cbn [conversations triggers].
    unfold chunk_calls. by rewrite chunk_triggers_length.
  - intros ((body & Hjson & Hvalid) & Hmock & Hnone).
    rewrite (serve_caught _ _ _ _
               (POST_try_no_client w store body vb Hjson Hvalid Hmock Hnone)).
    erewrite POST_catch_resolved;
      [|reflexivity|by apply (validated_sid_nonempty body)].
    reflexivity.
Qed.

Lemma serve_takes w store : exists p, Takes w store p.
Proof.
  destruct (request_json w) as [body|e] eqn:Hjson;
    [|exists (Unresolved e); by left].
  assert (Hnull : body = JNull \/ body <> JNull)
    by (destruct body; (by left) || (by right)).
  destruct Hnull as [->|Hnull].
  { exists (Unresolved (TypeError_null "message")). right. by left. }
  destruct (validateRequestBody body) as [vb|e] eqn:Hvalid.
  2:{ exists (Unresolved e). right. right. by exists body. }
  assert (Hreq : exists body, request_json w = Return body /\
                              validateRequestBody body = Return vb)
    by by exists body.
  destruct (mock_mode w) eqn:Hmock.
  - set (T := mockResponse (rb_message vb)).
    assert (Hs : StreamSucceeds w (rb_message vb) (history_of store vb) T)
      by (unfold StreamSucceeds; by rewrite Hmock).
    destruct (Js.is_empty (Js.trim T)) eqn:HT.
    + by exists (Blank vb T).
    + by exists (Completed vb T).
  - destruct (openai w) as [client|] eqn:Hclient.
    2:{ by exists (NoClient vb). }
    destruct (failure (client (history_of store vb))) as [e|] eqn:Hfail.
    { exists (ModelFailed vb e). split; [done|]. split; [done|]. eauto. }
    set (T := join (deltas (client (history_of store vb)))).
    assert (Hs : StreamSucceeds w (rb_message vb) (history_of store vb) T).
    { unfold StreamSucceeds. rewrite Hmock. eauto. }
    destruct (Js.is_empty (Js.trim T)) eqn:HT.
    + by exists (Blank vb T).
    + by exists (Completed vb T).
Qed.

(* ===================================================================== *)
(** ** More on the validator *)
(* ===================================================================== *)

Lemma validated_exactly body vb :
  validateRequestBody body = Return vb <->
  exists fields m s,
    body = JObj fields /\
    lookup_field "message" fields = Some (JStr m) /\
    lookup_field "sessionId" fields = Some (JStr s) /\
    s <> EmptyString /\
    Js.trim m <> EmptyString /\
    (String.length m <= 4000)%nat /\
    vb = {| rb_message := Js.trim m;
            rb_sessionId := s;
            rb_userId := default (JStr "anonymous")
                           (lookup_field "userId" fields) |}.
Proof.
  split.
  - intros H.
    destruct (validateRequestBody_inv body vb H)
      as (fields & m & -> & Hm & Hs & Hsne & Ht & Hlen & _).
    assert (Hmne : m <> EmptyString) by (by intros ->).
    rewrite (validateRequestBody_strings fields m _ Hm Hmne Hs Hsne) in H.
    rewrite Ht, (proj2 (Nat.ltb_ge _ _) Hlen) in H.
    injection H as <-.
    exists fields, m, (rb_sessionId vb).
    repeat split; try done. by apply is_empty_false.
  - intros (fields & m & s & -> & Hm & Hs & Hsne & Ht & Hlen & ->).
    rewrite (validateRequestBody_strings fields m s); try done.
    + apply is_empty_false in Ht as ->.
      by apply Nat.ltb_ge in Hlen as ->.
    + by intros ->.
Qed.

(** X1: the validator accepts exactly the parsed objects whose [message]
    is a string of at most 4000 code units that is not blank and whose
    [sessionId] is a non-empty string; what it returns is the trimmed
    message, the session identifier, and the body's [userId] as it came,
    ["anonymous"] standing in for an absent one only. *)
Theorem validateRequestBody_accepts_exactly body vb :
  validateRequestBody body = Return vb <->
  exists fields m s,
    body = JObj fields /\
    lookup_field "message" fields = Some (JStr m) /\
    lookup_field "sessionId" fields = Some (JStr s) /\
    s <> EmptyString /\
    Js.trim m <> EmptyString /\
    (String.length m <= 4000)%nat /\
    vb = {| rb_message := Js.trim m;
            rb_sessionId := s;
            rb_userId := default (JStr "anonymous")
                           (lookup_field "userId" fields) |}.
Proof. apply validated_exactly. Qed.

(** The five texts the validator can throw. *)
Lemma validateRequestBody_throws body e :
  validateRequestBody body = Throw e ->
  exists text,
    e = Error text /\
    In text ["Request body must be an object";
             "Message is required and must be a string";
             "SessionId is required and must be a string";
             "Message cannot be empty";
             "Message too long (max 4000 characters)"].
Proof.
  unfold validateRequestBody. intros H.
  repeat match type of H with
         | (if ?b then _ else _) = _ => destruct b
         end;
    try discriminate H; injection H as <-; eexists; (split; [reflexivity|]);
    cbn; tauto.
Qed.

(** X2: whatever rule of the validator a parsed body other than [null]
    breaks, the handler answers HTTP 400 with errorCode VALIDATION_ERROR
    and the validator's own text as [error]; the store is untouched and no
    broker call is made. *)
Theorem validation_failure_is_400 w store body e :
  request_json w = Return body ->
  body <> JNull ->
  validateRequestBody body = Throw e ->
  exists text,
    e = Error text /\
    serve w store =
    (Return {| status := 400;
               body := ErrorResponse text (details_of w text)
                         (Some "VALIDATION_ERROR") |},
     store, []).
Proof.
  intros Hjson Hnull Hthrow.
  destruct (validateRequestBody_throws body e Hthrow) as (text & -> & Hin).
  exists text. split; [done|].
  apply (serve_validation_error w store body); try done.
  cbn in Hin.
  destruct Hin as [<-|[<-|[<-|[<-|[<-|[]]]]]]; by vm_compute.
Qed.

Lemma validation_failure_is_400_witness :
  exists text,
    Error "Request body must be an object" = Error text /\
    serve (mock_world (Return (JNum 7))) ∅ =
    (Return {| status := 400;
               body := ErrorResponse text (Some text)
                         (Some "VALIDATION_ERROR") |},
     ∅, []).
Proof.
  refine (validation_failure_is_400 (mock_world (Return (JNum 7))) ∅
            (JNum 7) (Error "Request body must be an object")
            eq_refl _ eq_refl).
  discriminate.
Defined.

(** X3: a message that is not empty but consists of white space only is
    rejected by the blank rule: with a well-formed session identifier the
    handler answers HTTP 400 / VALIDATION_ERROR with the text "Message
    cannot be empty", whatever the length of the message, and stores and
    publishes nothing. *)
Theorem blank_message_rejected w store fields m s :
  request_json w = Return (JObj fields) ->
  lookup_field "message" fields = Some (JStr m) ->
  m <> EmptyString ->
  Js.trim m = EmptyString ->
  lookup_field "sessionId" fields = Some (JStr s) ->
  s <> EmptyString ->
  serve w store =
  (Return {| status := 400;
             body := ErrorResponse "Message cannot be empty"
                       (details_of w "Message cannot be empty")
                       (Some "VALIDATION_ERROR") |},
   store, []).
Proof.
  intros Hjson Hm Hmne Ht Hs Hsne.
  apply (serve_validation_error w store (JObj fields)); try done.
  rewrite (validateRequestBody_strings fields m s) by done.
  by rewrite Ht.
Qed.

Lemma blank_message_rejected_witness :
  serve (mock_world (Return (chat_body "   " "s1"))) ∅ =
  (Return {| status := 400;
             body := ErrorResponse "Message cannot be empty"
                       (Some "Message cannot be empty")
                       (Some "VALIDATION_ERROR") |},
   ∅, []).
Proof.
  refine (blank_message_rejected (mock_world (Return (chat_body "   " "s1")))
            ∅ [("message", JStr "   "); ("sessionId", JStr "s1")]
            "   " "s1" eq_refl eq_refl _ eq_refl eq_refl _);
    discriminate.
Defined.

(* ===================================================================== *)
(** ** What every request gets *)
(* ===================================================================== *)

Lemma error_response_shape w e :
  (status (error_response w e) = 400 /\
   exists text details,
     body (error_response w e) =
     ErrorResponse text details (Some "VALIDATION_ERROR")) \/
  (status (error_response w e) = 500 /\
   exists details,
     body (error_response w e) =
     ErrorResponse "Failed to process message" details
       (Some "PROCESSING_ERROR")).
Proof.
  unfold error_response.
  destruct (isValidationError (errorMessage_of e)); [left|right];
    (split; [reflexivity|]); eauto.
Qed.

Lemma handleOpenAIError_shape e :
  In (ei_status (handleOpenAIError e)) [400; 429; 500; 503] /\
  In (ei_code (handleOpenAIError e))
     ["QUOTA_EXCEEDED"; "RATE_LIMITED"; "AUTH_FAILED"; "INVALID_REQUEST";
      "SERVICE_UNAVAILABLE"; "CONNECTION_ERROR"; "UNKNOWN_ERROR"].
Proof.
  destruct (some_rule_applies e) as [r Hr].
  rewrite (handleOpenAIError_rule r e Hr).
  destruct r; cbn; tauto.
Qed.

(** X4: the handler answers every request: no thrown value escapes it,
    whatever the body, the broker and the model do.  A success body comes
    with status 200 and [success = true]; an error body comes with one of
    the statuses 400, 429, 500 and 503 and always carries one of the nine
    error codes. *)
Theorem every_request_is_answered w store :
  exists r,
    fst (fst (serve w store)) = Return r /\
    match body r with
    | SuccessResponse success _ _ => status r = 200 /\ success = true
    | ErrorResponse _ _ errorCode =>
        In (status r) [400; 429; 500; 503] /\
        exists code,
          errorCode = Some code /\
          In code ["VALIDATION_ERROR"; "PROCESSING_ERROR"; "QUOTA_EXCEEDED";
                   "RATE_LIMITED"; "AUTH_FAILED"; "INVALID_REQUEST";
                   "SERVICE_UNAVAILABLE"; "CONNECTION_ERROR";
                   "UNKNOWN_ERROR"]
    end.
Proof.
  destruct (serve_takes w store) as [p Hp].
  rewrite (serve_path w store p Hp).
  assert (Hcatch : forall e,
    match body (error_response w e) with
    | SuccessResponse success _ _ =>
        status (error_response w e) = 200 /\ success = true
    | ErrorResponse _ _ errorCode =>
        In (status (error_response w e)) [400; 429; 500; 503] /\
        exists code,
          errorCode = Some code /\
          In code ["VALIDATION_ERROR"; "PROCESSING_ERROR"; "QUOTA_EXCEEDED";
                   "RATE_LIMITED"; "AUTH_FAILED"; "INVALID_REQUEST";
                   "SERVICE_UNAVAILABLE"; "CONNECTION_ERROR";
                   "UNKNOWN_ERROR"]
    end).
  { intros e.
    destruct (error_response_shape w e)
      as [(-> & text & d & ->)|(-> & d & ->)];
      (split; [cbn; tauto|]); eexists; (split; [reflexivity|]); cbn; tauto. }
  destruct p as [e|vb T|vb T|vb e|vb]; cbn [result_of fst];
    eexists; (split; [reflexivity|]); try apply Hcatch.
  - by cbn.
  - cbn [body status].
    destruct (handleOpenAIError_shape e) as [Hs Hc].
    split; [exact Hs|]. eexists. split; [reflexivity|].
    cbn in Hc |- *. tauto.
Qed.

(* ===================================================================== *)
(** ** The store across requests *)
(* ===================================================================== *)

(** The store a request leaves: untouched, or with the conversation of the
    validated session grown by the user turn, and by the assistant turn
    when the request completed. *)
Lemma store_after w store :
  snd (fst (serve w store)) = store \/
  exists body vb added,
    request_json w = Return body /\
    validateRequestBody body = Return vb /\
    snd (fst (serve w store)) =
      <[rb_sessionId vb := resolved store (rb_sessionId vb) ++ added]> store
    /\
    (added = [{| role := user; content := rb_message vb |}] \/
     exists T, added = [{| role := user; content := rb_message vb |};
                        {| role := assistant; content := T |}]).
Proof.
  destruct (serve_takes w store) as [p Hp].
  rewrite (serve_path w store p Hp).
  destruct p as [e|vb T|vb T|vb e|vb]; cbn [Takes result_of fst snd] in *;
    [by left|right..].
  - destruct Hp as ((body & Hjson & Hvalid) & _).
    exists body, vb, [{| role := user; content := rb_message vb |};
                      {| role := assistant; content := T |}].
    repeat split; try done; [|by eauto].
    unfold history_of, assistant_turn. by rewrite <- app_assoc.
  - destruct Hp as ((body & Hjson & Hvalid) & _).
    exists body, vb, [{| role := user; content := rb_message vb |}].
    repeat split; try done. by left.
  - destruct Hp as ((body & Hjson & Hvalid) & _).
    exists body, vb, [{| role := user; content := rb_message vb |}].
    repeat split; try done. by left.
  - destruct Hp as ((body & Hjson & Hvalid) & _).
    exists body, vb, [{| role := user; content := rb_message vb |}].
    repeat split; try done. by left.
Qed.

(** X5: conversations only grow.  Whatever happens to a request, every
    conversation the store held before is still there afterwards with the
    same turns in front, and at most two turns added; no session is ever
    removed or rewritten. *)
Theorem conversations_only_grow w store sid h :
  store !! sid = Some h ->
  exists added,
    snd (fst (serve w store)) !! sid = Some (h ++ added) /\
    (length added <= 2)%nat.
Proof.
  intros Hh.
  destruct (store_after w store)
    as [->|(body & vb & added & _ & _ & -> & Hadded)].
  - exists []. rewrite app_nil_r. split; [done|cbn; lia].
  - destruct (decide (rb_sessionId vb = sid)) as [<-|Hne].
    + exists added. rewrite lookup_insert_eq. unfold resolved. rewrite Hh.
      split; [done|]. destruct Hadded as [->|[T ->]]; cbn; lia.
    + exists []. rewrite lookup_insert_ne by done.
      rewrite app_nil_r. split; [done|cbn; lia].
Qed.

Lemma conversations_only_grow_witness :
  exists added,
    snd (fst (serve (mock_world (Return (chat_body "hello" "s1")))
                (<["s1" := [system_turn]]> ∅))) !! "s1"
    = Some ([system_turn] ++ added) /\
    (length added <= 2)%nat.
Proof.
  exact (conversations_only_grow
           (mock_world (Return (chat_body "hello" "s1")))
           (<["s1" := [system_turn]]> ∅) "s1" [system_turn] eq_refl).
Defined.

(** X6: a request touches one session at most.  The conversation of a
    session is the same after the request as before, unless the request
    was validated and names that very session. *)
Theorem other_sessions_untouched w store sid :
  snd (fst (serve w store)) !! sid = store !! sid \/
  exists body vb,
    request_json w = Return body /\
    validateRequestBody body = Return vb /\
    rb_sessionId vb = sid.
Proof.
  destruct (store_after w store)
    as [->|(body & vb & added & Hjson & Hvalid & -> & _)]; [by left|].
  destruct (decide (rb_sessionId vb = sid)) as [Heq|Hne].
  - right. by exists body, vb.
  - left. by rewrite lookup_insert_ne.
Qed.

Lemma answers_follow_user prev h turn :
  role turn = user ->
  answers_follow_questions prev h = true ->
  answers_follow_questions prev (h ++ [turn]) = true.
Proof.
  intros Hu. revert prev.
  induction h as [|x h IH]; intros prev; cbn.
  - by rewrite Hu.
  - destruct (role x), prev; try done; apply IH.
Qed.

Lemma answers_follow_exchange prev h question answer :
  role question = user ->
  role answer = assistant ->
  answers_follow_questions prev h = true ->
  answers_follow_questions prev (h ++ [question; answer]) = true.
Proof.
  intros Hq Ha. revert prev.
  induction h as [|x h IH]; intros prev; cbn.
  - by rewrite Hq, Ha.
  - destruct (role x), prev; try done; apply IH.
Qed.

Lemma well_formed_grown h added :
  well_formed h ->
  (exists m, added = [{| role := user; content := m |}]) \/
  (exists m T, added = [{| role := user; content := m |};
                        {| role := assistant; content := T |}]) ->
  well_formed (h ++ added).
Proof.
  intros (rest & -> & Hsys & Hafq) Hadded.
  exists (rest ++ added). split; [done|].
  destruct Hadded as [[m ->]|(m & T & ->)].
  - split; [|by apply answers_follow_user].
    apply Forall_app. split; [done|]. by repeat constructor.
  - split; [|by apply answers_follow_exchange].
    apply Forall_app. split; [done|]. by repeat constructor.
Qed.

Lemma well_formed_seed : well_formed [system_turn].
Proof. exists []. by repeat split. Qed.

(** X7: the shape of conversations is an invariant of the handler.  If
    every stored conversation starts with the system turn, holds no other
    system turn, and has each assistant turn right after a user turn, then
    the same is true of the store after any request, whatever its
    outcome. *)
Theorem store_stays_well_formed w store :
  store_well_formed store ->
  store_well_formed (snd (fst (serve w store))).
Proof.
  intros Hwf.
  destruct (store_after w store)
    as [->|(body & vb & added & _ & _ & -> & Hadded)]; [done|].
  intros sid h. destruct (decide (rb_sessionId vb = sid)) as [<-|Hne].
  - rewrite lookup_insert_eq. intros [= <-].
    apply well_formed_grown.
    + unfold resolved.
      destruct (store !! rb_sessionId vb) as [h0|] eqn:Hh; cbn;
        [by apply (Hwf _ _ Hh) | apply well_formed_seed].
    + destruct Hadded as [->|[T ->]]; eauto.
  - rewrite lookup_insert_ne by done. apply Hwf.
Qed.

Lemma store_stays_well_formed_witness :
  store_well_formed
    (snd (fst (serve (live_world (Return (chat_body "hello" "s1"))
                        breaking_client)
                 (<["s1" := [system_turn;
                             {| role := user; content := "hi" |}]]> ∅)))).
Proof.
  apply (store_stays_well_formed
           (live_world (Return (chat_body "hello" "s1")) breaking_client)
           (<["s1" := [system_turn;
                       {| role := user; content := "hi" |}]]> ∅)).
  intros sid h Hh.
  destruct (decide (sid = "s1")) as [->|Hne].
  - rewrite lookup_insert_eq in Hh. injection Hh as <-.
    exists [{| role := user; content := "hi" |}].
    split; [reflexivity|]. split; [|reflexivity].
    repeat constructor. discriminate.
  - rewrite lookup_insert_ne, lookup_empty in Hh by done. discriminate.
Defined.

(* ===================================================================== *)
(** ** The broker calls of a request *)
(* ===================================================================== *)

(** The calls of a request: none when the session was never resolved;
    otherwise the user message, the chunks, and one closing call. *)
Lemma calls_shape w store :
  (snd (serve w store) = [] /\
   exists e, fst (fst (serve w store)) = Return (error_response w e)) \/
  exists parsed vb last,
    request_json w = Return parsed /\
    validateRequestBody parsed = Return vb /\
    snd (serve w store) =
      user_trigger w vb :: chunk_calls w store vb ++ [last] /\
    channel last = channel_of (rb_sessionId vb) /\
    chunk_of (data last) = None /\
    ((event last = "assistant-message-complete" /\
      exists T,
        data last = PusherAssistantComplete (fresh_messageId w) T
                      (toISOString w (S (length (chunk_calls w store vb))))
                      true /\
        fst (fst (serve w store)) =
        Return {| status := 200;
                  body := SuccessResponse true (fresh_messageId w) T |}) \/
     (In (event last) ["service-error"; "error"] /\
      messageId_of (data last) = None /\
      exists r text details code,
        fst (fst (serve w store)) = Return r /\
        In (status r) [400; 429; 500; 503] /\
        body r = ErrorResponse text details code)).
Proof.
  destruct (serve_takes w store) as [p Hp].
  rewrite (serve_path w store p Hp).
  destruct p as [e|vb T|vb T|vb e|vb]; cbn [Takes result_of fst snd] in *.
  - left. split; [done|]. by exists e.
  - right. destruct Hp as ((parsed & Hjson & Hvalid) & _).
    exists parsed, vb, (complete_trigger w (rb_sessionId vb) T
                        (length (chunk_calls w store vb))).
    repeat split; try done. left. split; [done|]. by exists T.
  - right. destruct Hp as ((parsed & Hjson & Hvalid) & _).
    eexists parsed, vb, _. repeat split; try done.
    right. split; [cbn; tauto|]. split; [done|].
    destruct (error_response_shape w (Error "No response generated"))
      as [(Hs & text & d & Hb)|(Hs & d & Hb)];
      eexists _, _, _, _; (split; [reflexivity|]);
      rewrite Hs, Hb; (split; [cbn; tauto|reflexivity]).
  - right. destruct Hp as ((parsed & Hjson & Hvalid) & _).
    eexists parsed, vb, _. repeat split; try done.
    right. split; [cbn; tauto|]. split; [done|].
    eexists _, _, _, _. split; [reflexivity|]. cbn [status body].
    split; [apply handleOpenAIError_shape | reflexivity].
  - right. destruct Hp as ((parsed & Hjson & Hvalid) & Hmock & Hclient).
    exists parsed, vb,
      (error_trigger w (rb_sessionId vb) (Error "OpenAI not initialized")
         1 1).
    assert (Hnone : chunk_calls w store vb = []).
    { unfold chunk_calls, stream_chunks. by rewrite Hmock, Hclient. }
    rewrite Hnone. repeat split; try done.
    right. split; [cbn; tauto|]. split; [done|].
    destruct (error_response_shape w (Error "OpenAI not initialized"))
      as [(Hs & text & d & Hb)|(Hs & d & Hb)];
      eexists _, _, _, _; (split; [reflexivity|]);
      rewrite Hs, Hb; (split; [cbn; tauto|reflexivity]).
Qed.

Lemma chunk_calls_events w store vb :
  Forall (fun c => channel c = channel_of (rb_sessionId vb) /\
                   event c = "assistant-message-chunk" /\
                   isComplete_of (data c) = Some false)
    (chunk_calls w store vb).
Proof. apply chunk_triggers_events. Qed.

(** X8: a request publishes on one channel only.  Every broker call the
    handler makes belongs to a validated request and goes to the channel
    [chat-<sessionId>] of that request's session; before validation, and
    for a request that fails it, nothing is published anywhere. *)
Theorem calls_stay_on_session_channel w store c :
  In c (snd (serve w store)) ->
  exists body vb,
    request_json w = Return body /\
    validateRequestBody body = Return vb /\
    channel c = "chat-" +:+ rb_sessionId vb.
Proof.
  intros Hin.
  destruct (calls_shape w store)
    as [[Hnil _]|(body & vb & last & Hjson & Hvalid & Hcalls & Hch & _)].
  - rewrite Hnil in Hin. destruct Hin.
  - exists body, vb. repeat split; try done.
    rewrite Hcalls in Hin. cbn in Hin.
    destruct Hin as [<-|Hin]; [reflexivity|].
    apply in_app_or in Hin as [Hin|[<-|[]]]; [|exact Hch].
    pose proof (chunk_calls_events w store vb) as Hall.
    rewrite Forall_forall in Hall.
    apply list_elem_of_In in Hin. by destruct (Hall c Hin).
Qed.

Lemma calls_stay_on_session_channel_witness :
  exists body vb,
    request_json (mock_world (Return (chat_body "hello" "s1"))) =
      Return body /\
    validateRequestBody body = Return vb /\
    channel (user_trigger (mock_world (Return (chat_body "hello" "s1")))
               hello_request)
    = "chat-" +:+ rb_sessionId vb.
Proof.
  refine (calls_stay_on_session_channel
            (mock_world (Return (chat_body "hello" "s1"))) ∅
            (user_trigger (mock_world (Return (chat_body "hello" "s1")))
               hello_request) _).
  vm_compute. by left.
Defined.

(** X9: the calls of a request follow one protocol.  Either there is no
    call at all, or the calls are: one [user-message]; then
    [assistant-message-chunk] events only; then exactly one closing call,
    which is [assistant-message-complete], [service-error] or [error].
    The closing call is [assistant-message-complete] exactly when the
    response is a 200. *)
Theorem calls_follow_protocol w store :
  snd (serve w store) = [] \/
  exists first chunks last,
    snd (serve w store) = first :: chunks ++ [last] /\
    event first = "user-message" /\
    Forall (fun c => event c = "assistant-message-chunk") chunks /\
    In (event last) closing_events /\
    (event last = "assistant-message-complete" <->
     exists r, fst (fst (serve w store)) = Return r /\ status r = 200).
Proof.
  destruct (calls_shape w store)
    as [[Hnil _]|(parsed & vb & last & _ & _ & Hcalls & _ & _ & Hlast)];
    [by left|right].
  exists (user_trigger w vb), (chunk_calls w store vb), last.
  split; [done|]. split; [done|]. split.
  { eapply Forall_impl; [apply chunk_calls_events|].
    by intros c (_ & ? & _). }
  destruct Hlast as [(Hev & T & _ & Hr)
                    |(Hev & _ & r & text & d & code & Hr & Hs & Hb)].
  - rewrite Hev, Hr. split; [cbn; tauto|].
    split; [|done]. intros _. by eexists.
  - split; [cbn in Hev |- *; tauto|]. rewrite Hr. split.
    + intros Heq. rewrite Heq in Hev. cbn in Hev.
      by destruct Hev as [|[|[]]].
    + intros (r' & [= <-] & H200). rewrite H200 in Hs. cbn in Hs.
      by destruct Hs as [|[|[|[|[]]]]].
Qed.

(** X10: one identifier ties a reply together.  When the response is a
    success carrying [messageId] and [message], every chunk event and the
    completion event of that request carry the same [messageId], and the
    completion event carries the same text as the response. *)
Theorem messageId_is_shared w store r success messageId message c :
  fst (fst (serve w store)) = Return r ->
  body r = SuccessResponse success messageId message ->
  In c (snd (serve w store)) ->
  match data c with
  | PusherAssistantChunk id _ _ _ _ => id = messageId
  | PusherAssistantComplete id content _ _ =>
      id = messageId /\ content = message
  | _ => True
  end.
Proof.
  intros Hr Hb Hin.
  destruct (calls_shape w store)
    as [[Hnil _]|(parsed & vb & last & _ & _ & Hcalls & _ & _ & Hlast)].
  { rewrite Hnil in Hin. destruct Hin. }
  destruct Hlast as [(_ & T & Hdata & Hr')
                    |(_ & _ & r' & text & d & code & Hr' & _ & Hb')].
  2:{ rewrite Hr in Hr'. injection Hr' as <-. congruence. }
  rewrite Hr in Hr'. injection Hr' as ->. cbn in Hb.
  injection Hb as <- <- <-.
  rewrite Hcalls in Hin. cbn in Hin.
  destruct Hin as [<-|Hin]; [done|].
  apply in_app_or in Hin as [Hin|[<-|[]]]; [|by rewrite Hdata].
  unfold chunk_calls in Hin.
  revert Hin. generalize 1%nat at 1 2. generalize EmptyString.
  induction (stream_chunks w (rb_message vb) (history_of store vb))
    as [|x xs IH]; intros acc n Hin; [destruct Hin|].
  cbn in Hin. destruct Hin as [<-|Hin]; [done|]. by apply (IH _ _ Hin).
Qed.

Lemma messageId_is_shared_witness :
  let w := live_world (Return (chat_body "hello" "s1")) greeting_client in
  "msg_1714564800000_k3x9q2m7c" = "msg_1714564800000_k3x9q2m7c" /\
  "Hi there" = "Hi there".
Proof.
  refine (messageId_is_shared
            (live_world (Return (chat_body "hello" "s1")) greeting_client)
            ∅ _ true "msg_1714564800000_k3x9q2m7c" "Hi there"
            (complete_trigger
               (live_world (Return (chat_body "hello" "s1")) greeting_client)
               "s1" "Hi there" 2)
            eq_refl eq_refl _).
  vm_compute. tauto.
Defined.

(* ===================================================================== *)
(** ** The two strategies *)
(* ===================================================================== *)

(** No canned reply is blank. *)
Lemma mockResponse_not_blank message :
  Js.is_empty (Js.trim (mockResponse message)) = false.
Proof.
  unfold mockResponse.
  repeat match goal with
         | |- context [if ?b then _ else _] => destruct b
         end; reflexivity.
Qed.

(** X11: in mock mode every validated request succeeds.  The handler
    answers 200 with the canned reply for the trimmed message, the session
    gains the user turn and the assistant turn, and the broker is called
    once for the user message, once per piece of the reply, and once for
    the completion. *)
Theorem mock_mode_always_succeeds w store parsed vb :
  request_json w = Return parsed ->
  validateRequestBody parsed = Return vb ->
  mock_mode w = true ->
  let reply := mockResponse (rb_message vb) in
  fst (serve w store) =
  (Return {| status := 200;
             body := SuccessResponse true (fresh_messageId w) reply |},
   <[rb_sessionId vb :=
       resolved store (rb_sessionId vb) ++
       [{| role := user; content := rb_message vb |};
        {| role := assistant; content := reply |}]]> store) /\
  length (snd (serve w store)) = (2 + length (Js.split_space reply))%nat.
Proof.
  intros Hjson Hvalid Hmock reply.
  assert (Hp : Takes w store (Completed vb reply)).
  { split; [by exists parsed|]. split.
    - unfold StreamSucceeds. by rewrite Hmock.
    - apply mockResponse_not_blank. }
  rewrite (serve_path w store _ Hp). cbn [result_of fst snd]. split.
  - unfold history_of, assistant_turn. by rewrite <- app_assoc.
  - cbn [length]. rewrite length_app. unfold chunk_calls.
    rewrite chunk_triggers_length. unfold stream_chunks. rewrite Hmock.
    rewrite spaced_length. cbn [length]. fold reply. lia.
Qed.

Lemma mock_mode_always_succeeds_witness :
  let w := mock_world (Return (chat_body "  what is up  " "s1")) in
  let reply := mockResponse "what is up" in
  fst (serve w ∅) =
  (Return {| status := 200;
             body := SuccessResponse true (fresh_messageId w) reply |},
   <["s1" := [system_turn;
              {| role := user; content := "what is up" |};
              {| role := assistant; content := reply |}]]> ∅) /\
  length (snd (serve w ∅)) = (2 + length (Js.split_space reply))%nat.
Proof.
  exact (mock_mode_always_succeeds
           (mock_world (Return (chat_body "  what is up  " "s1"))) ∅
           (chat_body "  what is up  " "s1")
           {| rb_message := "what is up"; rb_sessionId := "s1";
              rb_userId := JStr "anonymous" |}
           eq_refl eq_refl eq_refl).
Defined.

Lemma validated_calls w store parsed vb :
  request_json w = Return parsed ->
  validateRequestBody parsed = Return vb ->
  exists last,
    snd (serve w store) =
      user_trigger w vb :: chunk_calls w store vb ++ [last] /\
    chunk_of (data last) = None.
Proof.
  intros Hjson Hvalid.
  destruct (calls_shape w store)
    as [[Hnil [e He]]
       |(parsed' & vb' & last & Hjson' & Hvalid' & Hcalls & _ & Hlast & _)].
  - destruct (serve_takes w store) as [p Hp].
    pose proof (serve_path w store p Hp) as Hrun.
    destruct p as [e'|vb' T|vb' T|vb' e'|vb'];
      cbn [Takes result_of] in Hp, Hrun;
      try (rewrite Hrun in Hnil; discriminate Hnil).
    destruct Hp as [Hp|[[Hp _]|(b & Hb & _ & Hthrow)]].
    + congruence.
    + rewrite Hjson in Hp. injection Hp as ->. discriminate Hvalid.
    + rewrite Hjson in Hb. injection Hb as <-. congruence.
  - rewrite Hjson in Hjson'. injection Hjson' as <-.
    rewrite Hvalid in Hvalid'. injection Hvalid' as <-.
    by exists last.
Qed.

(** X12: the first call of a validated request is its [user-message], on
    the session's channel, carrying the trimmed message.  Its [userId] is
    never falsy: it is the body's [userId], of whatever type, when that is
    truthy, and ["anonymous"] when it is absent, [null], [false], zero or
    the empty string. *)
Theorem user_message_comes_first w store fields vb :
  request_json w = Return (JObj fields) ->
  validateRequestBody (JObj fields) = Return vb ->
  exists userId timestamp accepted rest,
    snd (serve w store) =
    {| channel := "chat-" +:+ rb_sessionId vb;
       event := "user-message";
       data := PusherUserMessage (rb_message vb) userId timestamp;
       delivered := accepted |} :: rest /\
    truthy (Some userId) = true /\
    (if truthy (lookup_field "userId" fields)
     then Some userId = lookup_field "userId" fields
     else userId = JStr "anonymous").
Proof.
  intros Hjson Hvalid.
  destruct (validated_calls w store _ vb Hjson Hvalid)
    as (last & Hcalls & _).
  apply validated_exactly in Hvalid
    as (fields' & m & s & [= <-] & _ & _ & _ & _ & _ & ->).
  rewrite Hcalls. unfold user_trigger, channel_of.
  cbn [rb_sessionId rb_message rb_userId].
  eexists _, _, _, _. split; [reflexivity|].
  unfold userId_or_anonymous.
  destruct (lookup_field "userId" fields) as [u|];
    cbn [default from_option id].
  - destruct (truthy (Some u)) eqn:Hu; [by rewrite Hu|done].
  - done.
Qed.

Lemma user_message_comes_first_witness :
  let w := mock_world
             (Return (JObj [("message", JStr "hello");
                            ("sessionId", JStr "s1");
                            ("userId", JNum 42)])) in
  exists userId timestamp accepted rest,
    snd (serve w ∅) =
    {| channel := "chat-s1";
       event := "user-message";
       data := PusherUserMessage "hello" userId timestamp;
       delivered := accepted |} :: rest /\
    truthy (Some userId) = true /\
    Some userId = Some (JNum 42).
Proof.
  exact (user_message_comes_first
           (mock_world
              (Return (JObj [("message", JStr "hello");
                             ("sessionId", JStr "s1");
                             ("userId", JNum 42)]))) ∅
           [("message", JStr "hello"); ("sessionId", JStr "s1");
            ("userId", JNum 42)]
           {| rb_message := "hello"; rb_sessionId := "s1";
              rb_userId := JNum 42 |}
           eq_refl eq_refl).
Defined.

Lemma chunk_strings_calls w store vb last :
  chunk_of (data last) = None ->
  chunk_strings (user_trigger w vb :: chunk_calls w store vb ++ [last]) =
  stream_chunks w (rb_message vb) (history_of store vb).
Proof.
  intros Hlast. unfold chunk_strings. cbn [omap list_omap user_trigger data chunk_of].
  change (omap (fun c => chunk_of (data c))
            (chunk_calls w store vb ++ [last]))
    with (chunk_strings (chunk_calls w store vb ++ [last])).
  unfold chunk_strings. rewrite omap_app. cbn. rewrite Hlast, app_nil_r.
  apply chunk_strings_chunk_triggers.
Qed.

(** X13: on the model-backed path the chunk events are the units of the
    stream that carry text, in order: a unit without text publishes
    nothing, and this holds whether the stream then ends normally or
    breaks. *)
Theorem chunks_are_the_nonempty_units w store parsed vb client :
  request_json w = Return parsed ->
  validateRequestBody parsed = Return vb ->
  mock_mode w = false ->
  openai w = Some client ->
  chunk_strings (snd (serve w store)) =
  nonempty_units (deltas (client (history_of store vb))).
Proof.
  intros Hjson Hvalid Hmock Hclient.
  destruct (validated_calls w store _ vb Hjson Hvalid)
    as (last & Hcalls & Hlast).
  rewrite Hcalls, (chunk_strings_calls w store vb last Hlast).
  unfold stream_chunks. by rewrite Hmock, Hclient.
Qed.

Lemma chunks_are_the_nonempty_units_witness :
  chunk_strings
    (snd (serve (live_world (Return (chat_body "hello" "s1"))
                   greeting_client) ∅))
  = ["Hi"; " there"].
Proof.
  exact (chunks_are_the_nonempty_units
           (live_world (Return (chat_body "hello" "s1")) greeting_client) ∅
           (chat_body "hello" "s1") hello_request greeting_client
           eq_refl eq_refl eq_refl eq_refl).
Defined.

(* ===================================================================== *)
(** ** Loading the module *)
(* ===================================================================== *)

Lemma env_missing_false env v : env_missing env v = false <-> env_set env v.
Proof.
  unfold env_missing, env_set. destruct (env !! v) as [value|].
  - rewrite is_empty_false. split; [by eauto|]. by intros (? & [= <-] & ?).
  - split; [done|]. by intros (? & ? & _).
Qed.

Lemma check_required_ok env names :
  check_required env names = Return tt <->
  Forall (env_set env) names.
Proof.
  induction names as [|v names IH]; cbn.
  - split; [constructor|done].
  - destruct (env_missing env v) eqn:Hv.
    + split; [done|]. intros H. inversion H as [|? ? Hset _]; subst.
      apply env_missing_false in Hset. congruence.
    + rewrite IH. apply env_missing_false in Hv. split.
      * by constructor.
      * by inversion 1.
Qed.

Lemma check_required_throws env names e :
  check_required env names = Throw e ->
  exists before v after,
    names = before ++ v :: after /\
    Forall (env_set env) before /\
    env_missing env v = true /\
    e = Error ("Missing required environment variable: " +:+ v).
Proof.
  induction names as [|v names IH]; cbn; [done|].
  destruct (env_missing env v) eqn:Hv.
  - intros [= <-]. exists [], v, names. by repeat split.
  - intros H. destruct (IH H) as (before & v' & after & -> & Hb & Hm & ->).
    exists (v :: before), v', after. repeat split; try done.
    constructor; [by apply env_missing_false|done].
Qed.

Lemma env_check_exactly env :
  validateEnvVars env = Return tt <->
  env_set env "PUSHER_APP_ID" /\
  env_set env "PUSHER_KEY" /\
  env_set env "PUSHER_SECRET" /\
  env_set env "PUSHER_CLUSTER" /\
  (env_mock env = true \/ env_set env "OPENAI_API_KEY").
Proof.
  unfold validateEnvVars, required. rewrite check_required_ok.
  destruct (env_mock env); cbn [negb app]; rewrite !Forall_cons, Forall_nil.
  - intuition.
  - intuition. discriminate.
Qed.

(** X14: the environment check passes exactly when the four broker
    variables are set to non-empty strings and, unless NODE_ENV is
    "development" and MOCK_OPENAI is "true", OPENAI_API_KEY is too.  A
    variable set to the empty string counts as missing. *)
Theorem validateEnvVars_accepts_exactly env :
  validateEnvVars env = Return tt <->
  env_set env "PUSHER_APP_ID" /\
  env_set env "PUSHER_KEY" /\
  env_set env "PUSHER_SECRET" /\
  env_set env "PUSHER_CLUSTER" /\
  (env_mock env = true \/ env_set env "OPENAI_API_KEY").
Proof. apply env_check_exactly. Qed.

(** X15: when the environment check fails, its error names the first
    missing variable in the order PUSHER_APP_ID, PUSHER_KEY, PUSHER_SECRET,
    PUSHER_CLUSTER, OPENAI_API_KEY (the last only when required): every
    required variable before the one named is set. *)
Theorem validateEnvVars_names_first_missing env e :
  validateEnvVars env = Throw e ->
  exists before v after,
    required env = before ++ v :: after /\
    Forall (env_set env) before /\
    env_missing env v = true /\
    e = Error ("Missing required environment variable: " +:+ v).
Proof. apply check_required_throws. Qed.

Lemma validateEnvVars_names_first_missing_witness :
  exists before v after,
    required (<["PUSHER_APP_ID" := "1234"]> (<["PUSHER_KEY" := ""]> ∅))
    = before ++ v :: after /\
    Forall (env_set (<["PUSHER_APP_ID" := "1234"]>
                       (<["PUSHER_KEY" := ""]> ∅))) before /\
    env_missing (<["PUSHER_APP_ID" := "1234"]> (<["PUSHER_KEY" := ""]> ∅)) v
    = true /\
    Error "Missing required environment variable: PUSHER_KEY" =
    Error ("Missing required environment variable: " +:+ v).
Proof.
  exact (validateEnvVars_names_first_missing
           (<["PUSHER_APP_ID" := "1234"]> (<["PUSHER_KEY" := ""]> ∅))
           (Error "Missing required environment variable: PUSHER_KEY")
           eq_refl).
Defined.



(* ===================================================================== *)
(** ** The client and the route together *)
(* ===================================================================== *)

Lemma trimEnd_idempotent s : Js.trimEnd (Js.trimEnd s) = Js.trimEnd s.
Proof.
  induction s as [|c s IH]; [reflexivity|].
  cbn [Js.trimEnd].
  destruct (Js.is_whitespace c && Js.is_empty (Js.trimEnd s)) eqn:Hc;
    [reflexivity|].
  cbn [Js.trimEnd]. by rewrite IH, Hc.
Qed.

Lemma trimStart_head s :
  Js.trimStart s = EmptyString \/
  exists c r, Js.trimStart s = String c r /\ Js.is_whitespace c = false.
Proof.
  induction s as [|c s IH]; [by left|].
  cbn [Js.trimStart]. destruct (Js.is_whitespace c) eqn:Hc; [exact IH|].
  right. by exists c, s.
Qed.

Lemma trim_idempotent s : Js.trim (Js.trim s) = Js.trim s.
Proof.
  unfold Js.trim.
  destruct (trimStart_head s) as [->|(c & r & -> & Hc)]; [reflexivity|].
  cbn [Js.trimEnd]. rewrite Hc. cbn [andb Js.trimStart]. rewrite Hc.
  cbn [Js.trimEnd]. by rewrite Hc, trimEnd_idempotent.
Qed.

Lemma trimEnd_length s : (String.length (Js.trimEnd s) <= String.length s)%nat.
Proof.
  induction s as [|c s IH]; [done|]. cbn [Js.trimEnd].
  destruct (Js.is_whitespace c && Js.is_empty (Js.trimEnd s)); cbn; lia.
Qed.

Lemma trimStart_length s :
  (String.length (Js.trimStart s) <= String.length s)%nat.
Proof.
  induction s as [|c s IH]; [done|]. cbn [Js.trimStart].
  destruct (Js.is_whitespace c); cbn; lia.
Qed.

Lemma trim_length s : (String.length (Js.trim s) <= String.length s)%nat.
Proof.
  unfold Js.trim. pose proof (trimEnd_length (Js.trimStart s)).
  pose proof (trimStart_length s). lia.
Qed.

Lemma sendMessage_request_ready st :
  ready st ->
  sendMessage_request st = Some (page_body st, posting_state st).
Proof.
  intros (Hblank & Hidle & _). unfold sendMessage_request.
  apply is_empty_false in Hblank. by rewrite Hblank, Hidle.
Qed.

Lemma sendMessage_request_inv st parsed st' :
  sendMessage_request st = Some (parsed, st') ->
  Js.trim (inputMessage st) <> EmptyString /\
  isLoading st = false /\
  parsed = page_body st /\
  st' = posting_state st.
Proof.
  unfold sendMessage_request.
  destruct (Js.is_empty (Js.trim (inputMessage st))) eqn:Hblank;
    [discriminate|].
  destruct (isLoading st); [discriminate|]. cbn [orb].
  intros [= <- <-]. repeat split; try done. by apply is_empty_false.
Qed.

Lemma page_body_validated st now random :
  Js.trim (inputMessage st) <> EmptyString ->
  client_sessionId st = "session_" +:+ now +:+ "_" +:+ random ->
  validateRequestBody (page_body st) =
  if (4000 <? String.length (Js.trim (inputMessage st)))%nat
  then Throw (Error "Message too long (max 4000 characters)")
  else Return (page_request st).
Proof.
  intros Hblank Hsid. unfold page_body.
  rewrite (validateRequestBody_strings _ (Js.trim (inputMessage st))
             (client_sessionId st)); try done.
  - apply is_empty_false in Hblank. by rewrite trim_idempotent, Hblank.
  - by rewrite Hsid.
Qed.

(** X17: what the page posts.  When [sendMessage] goes ahead, the body it
    posts carries the trimmed input, the page's session identifier and the
    userId "user123"; the route's validator accepts it, keeping the
    message as it is, unless the trimmed input is longer than 4000 code
    units, which is the only validation failure the page can cause. *)
Theorem page_request_is_valid st now random parsed st' :
  client_sessionId st = "session_" +:+ now +:+ "_" +:+ random ->
  sendMessage_request st = Some (parsed, st') ->
  validateRequestBody parsed =
  if (4000 <? String.length (Js.trim (inputMessage st)))%nat
  then Throw (Error "Message too long (max 4000 characters)")
  else Return {| rb_message := Js.trim (inputMessage st);
                 rb_sessionId := client_sessionId st;
                 rb_userId := JStr "user123" |}.
Proof.
  intros Hsid Hsend.
  apply sendMessage_request_inv in Hsend as (Hblank & _ & -> & _).
  by apply (page_body_validated st now random).
Qed.

Lemma page_request_is_valid_witness :
  validateRequestBody
    (JObj [("message", JStr "hello"); ("sessionId", JStr "session_17_abc");
           ("userId", JStr "user123")]) =
  Return {| rb_message := "hello";
            rb_sessionId := "session_17_abc";
            rb_userId := JStr "user123" |}.
Proof.
  exact (page_request_is_valid (typing "  hello ") "17" "abc" _ _
           eq_refl eq_refl).
Defined.

Lemma exchange_ready w clock store st :
  ready st ->
  exchange w clock store st =
  match receive clock 0 (snd (serve (posted w (page_body st)) store))
          (posting_state st) with
  | Some received =>
      Some (sendMessage_settle
              (match fst (fst (serve (posted w (page_body st)) store)) with
               | Return response => Responded response
               | Throw _ => Rejected
               end) received,
            snd (fst (serve (posted w (page_body st)) store)))
  | None => None
  end.
Proof.
  intros Hready. unfold exchange.
  rewrite (sendMessage_request_ready st Hready).
  by destruct (serve (posted w (page_body st)) store) as [[r store'] calls].
Qed.

(** X18: a message that is too long is lost.  When the page posts an input
    whose trimmed text is longer than 4000 code units, the route answers
    400 without storing or publishing anything, and the page ends up idle
    with one alert, "Failed to send message. Please try again.", and with
    its input already cleared: the typed text is gone. *)
Theorem long_input_is_lost w clock store st :
  ready st ->
  (4000 < String.length (Js.trim (inputMessage st)))%nat ->
  serve (posted w (page_body st)) store =
  (Return {| status := 400;
             body := ErrorResponse "Message too long (max 4000 characters)"
                       (details_of w "Message too long (max 4000 characters)")
                       (Some "VALIDATION_ERROR") |},
   store, []) /\
  exchange w clock store st =
  Some ({| messages := messages st;
           inputMessage := EmptyString;
           isLoading := false;
           client_sessionId := client_sessionId st;
           currentAssistantMessage := currentAssistantMessage st;
           currentMessageId := currentMessageId st;
           alerts := alerts st ++
                     ["Failed to send message. Please try again."] |},
        store).
Proof.
  intros Hready Hlong. rewrite (exchange_ready w clock store st Hready).
  destruct Hready as (Hblank & _ & now & random & Hsid).
  pose proof (page_body_validated st now random Hblank Hsid) as Hvalid.
  apply Nat.ltb_lt in Hlong. rewrite Hlong in Hvalid.
  rewrite (serve_validation_error (posted w (page_body st)) store
             (page_body st) _ eq_refl) by done.
  split; reflexivity.
Qed.

Lemma long_input_is_lost_witness :
  serve (posted (mock_world (Return JNull))
           (page_body (typing (padded_message +:+ "b")))) ∅ =
  (Return {| status := 400;
             body := ErrorResponse "Message too long (max 4000 characters)"
                       (Some "Message too long (max 4000 characters)")
                       (Some "VALIDATION_ERROR") |},
   ∅, []) /\
  exchange (mock_world (Return JNull)) (fun _ => "1714564800001") ∅
    (typing (padded_message +:+ "b")) =
  Some ({| messages := [];
           inputMessage := EmptyString;
           isLoading := false;
           client_sessionId := "session_17_abc";
           currentAssistantMessage := EmptyString;
           currentMessageId := None;
           alerts := ["Failed to send message. Please try again."] |},
        ∅).
Proof.
  refine (long_input_is_lost (mock_world (Return JNull))
            (fun _ => "1714564800001") ∅
            (typing (padded_message +:+ "b")) _ _).
  - split; [by vm_compute|]. split; [reflexivity|]. by exists "17", "abc".
  - vm_compute. lia.
Defined.

Lemma reaches_own st w ch ev d n :
  ch = "chat-" +:+ client_sessionId st ->
  reaches_client st
    {| channel := ch; event := ev; data := d;
       delivered := bool_decide (trigger_failure w n = None) |}
  = bool_decide (trigger_failure w n = None).
Proof.
  intros ->. unfold reaches_client. cbn [delivered channel].
  by rewrite String.eqb_refl, andb_true_r.
Qed.

(** The chunk events of a stream, as the page receives them when the
    broker accepts every call: the last one wins. *)
Lemma receive_chunks_up w clock messageId chunks :
  broker_up w ->
  forall acc n t i st,
    receive clock i
      (chunk_triggers w ("chat-" +:+ client_sessionId st) messageId chunks
         acc n t) st
    = Some (match chunks with
            | [] => st
            | _ => on_chunk messageId (acc +:+ join chunks) st
            end).
Proof.
  intros Hup. induction chunks as [|c chunks IH]; intros acc n t i st;
    [reflexivity|].
  cbn [chunk_triggers receive].
  rewrite (reaches_own st w _ _ _ n eq_refl), Hup. cbn [bool_decide decide_rel].
  rewrite bool_decide_eq_true_2 by done.
  change (on_event (clock i) _ st)
    with (Some (on_chunk messageId (acc +:+ c) st)).
  change ("chat-" +:+ client_sessionId st)
    with ("chat-" +:+ client_sessionId (on_chunk messageId (acc +:+ c) st)).
  cbn beta iota. rewrite IH. destruct chunks as [|c' chunks].
  - cbn [join foldr]. by rewrite append_nil_r.
  - cbn [join foldr]. by rewrite append_assoc.
Qed.

(** The chunk events as the page receives them whatever the broker does:
    the page shows what it showed, or the text accumulated up to some
    chunk; nothing else changes. *)
Lemma receive_chunks_any w clock messageId chunks :
  forall acc n t i st,
    exists st',
      receive clock i
        (chunk_triggers w ("chat-" +:+ client_sessionId st) messageId chunks
           acc n t) st = Some st' /\
      (st' = st \/
       exists k, (1 <= k <= length chunks)%nat /\
                 st' = on_chunk messageId (acc +:+ join (take k chunks)) st).
Proof.
  induction chunks as [|c chunks IH]; intros acc n t i st.
  { exists st. by split; [|left]. }
  cbn [chunk_triggers receive].
  rewrite (reaches_own st w _ _ _ n eq_refl).
  destruct (bool_decide (trigger_failure w n = None)).
  - change (on_event (clock i) _ st)
      with (Some (on_chunk messageId (acc +:+ c) st)).
    change ("chat-" +:+ client_sessionId st)
      with ("chat-" +:+ client_sessionId (on_chunk messageId (acc +:+ c) st)).
    cbn beta iota.
    destruct (IH (acc +:+ c) (S n) (S t) (S i)
                (on_chunk messageId (acc +:+ c) st))
      as (st' & -> & [->|(k & Hk & ->)]); eexists; (split; [reflexivity|]);
      right.
    + exists 1%nat. split; [cbn; lia|]. cbn [take join foldr].
      by rewrite append_nil_r.
    + exists (S k). split; [cbn; lia|]. cbn [take join foldr].
      by rewrite append_assoc.
  - destruct (IH (acc +:+ c) (S n) (S t) i st)
      as (st' & -> & [->|(k & Hk & ->)]); eexists; (split; [reflexivity|]);
      [by left|right].
    exists (S k). split; [cbn; lia|]. cbn [take join foldr].
    by rewrite append_assoc.
Qed.

Lemma on_event_preserves now c st st' :
  on_event now c st = Some st' ->
  client_sessionId st' = client_sessionId st.
Proof.
  unfold on_event.
  repeat match goal with
         | |- context [if ?b then _ else _] => destruct b
         end;
    destruct (data c); intros [= <-]; reflexivity.
Qed.

Lemma reaches_same st st' c :
  client_sessionId st' = client_sessionId st ->
  reaches_client st' c = reaches_client st c.
Proof. unfold reaches_client. by intros ->. Qed.

Lemma receive_app clock l1 : forall i st l2,
  receive clock i (l1 ++ l2) st =
  match receive clock i l1 st with
  | Some st1 => receive clock (i + arrivals st l1) l2 st1
  | None => None
  end.
Proof.
  induction l1 as [|c l1 IH]; intros i st l2.
  - cbn. by rewrite Nat.add_0_r.
  - cbn [app receive]. unfold arrivals.
    destruct (reaches_client st c) eqn:Hc.
    + rewrite filter_cons_True by done. cbn [length].
      destruct (on_event (clock i) c st) as [st'|] eqn:Hev; [|done].
      rewrite IH. destruct (receive clock (S i) l1 st'); [|done].
      assert (Hsame : arrivals st' l1 =
                length (filter (fun c1 => reaches_client st c1 = true) l1)).
      { unfold arrivals. f_equal. apply list_filter_iff. intros x.
        by rewrite (reaches_same st st' x (on_event_preserves _ _ _ _ Hev)). }
      rewrite Hsame, Nat.add_succ_r. reflexivity.
    + rewrite filter_cons_False by (by rewrite Hc). apply IH.
Qed.

Lemma page_request_taken w st :
  ready st ->
  (String.length (Js.trim (inputMessage st)) <= 4000)%nat ->
  request_json (posted w (page_body st)) = Return (page_body st) /\
  validateRequestBody (page_body st) = Return (page_request st).
Proof.
  intros (Hblank & _ & now & random & Hsid) Hlen. split; [reflexivity|].
  rewrite (page_body_validated st now random Hblank Hsid).
  by apply Nat.ltb_ge in Hlen as ->.
Qed.

Lemma receive_user_first w clock vb rest st :
  rb_sessionId vb = client_sessionId st ->
  trigger_failure w 0%nat = None ->
  receive clock 0%nat (user_trigger w vb :: rest) st =
  receive clock 1%nat rest
    (on_user_message (clock 0%nat) (rb_message vb) (toISOString w 0%nat) st).
Proof.
  intros Hsid Hup. cbn [receive]. unfold user_trigger.
  rewrite (reaches_own st w _ _ _ 0%nat) by (unfold channel_of; by rewrite Hsid).
  by rewrite Hup.
Qed.

Lemma receive_one clock i w ch ev d n st :
  ch = "chat-" +:+ client_sessionId st ->
  trigger_failure w n = None ->
  receive clock i
    [{| channel := ch; event := ev; data := d;
        delivered := bool_decide (trigger_failure w n = None) |}] st
  = on_event (clock i)
      {| channel := ch; event := ev; data := d;
         delivered := bool_decide (trigger_failure w n = None) |} st.
Proof.
  intros Hch Hup. cbn [receive]. rewrite (reaches_own st w ch ev d n Hch).
  rewrite Hup, bool_decide_eq_true_2 by done.
  by destruct (on_event _ _ st).
Qed.

Lemma receive_lost clock i w ch ev d n e st :
  trigger_failure w n = Some e ->
  receive clock i
    [{| channel := ch; event := ev; data := d;
        delivered := bool_decide (trigger_failure w n = None) |}] st
  = Some st.
Proof.
  intros Hdown. cbn [receive]. unfold reaches_client. cbn [delivered].
  by rewrite Hdown, bool_decide_eq_false_2.
Qed.

(** X19: a successful exchange, seen from the page.  When the page posts
    an input of at most 4000 code units after trimming, the broker accepts
    every call, and the stream succeeds with a text [T] that is not blank,
    the page ends up idle, with its input cleared, no partial text on
    display, no alert, and exactly two messages added: the user's trimmed
    text, then the assistant's [T] under the identifier the response
    carries; the store gains the two turns. *)
Theorem exchange_completes w clock store st T :
  ready st ->
  (String.length (Js.trim (inputMessage st)) <= 4000)%nat ->
  broker_up w ->
  StreamSucceeds w (Js.trim (inputMessage st))
    (resolved store (client_sessionId st) ++
     [{| role := user; content := Js.trim (inputMessage st) |}]) T ->
  Js.trim T <> EmptyString ->
  exists sent done,
    exchange w clock store st =
    Some ({| messages := messages st ++
               [{| m_id := "user_" +:+ clock 0%nat; m_type := by_user;
                   m_content := Js.trim (inputMessage st);
                   m_timestamp := sent |};
                {| m_id := fresh_messageId w; m_type := by_assistant;
                   m_content := T; m_timestamp := done |}];
             inputMessage := EmptyString;
             isLoading := false;
             client_sessionId := client_sessionId st;
             currentAssistantMessage := EmptyString;
             currentMessageId := None;
             alerts := alerts st |},
          <[client_sessionId st :=
              resolved store (client_sessionId st) ++
              [{| role := user; content := Js.trim (inputMessage st) |};
               {| role := assistant; content := T |}]]> store).
Proof.
  intros Hready Hlen Hup Hstream HT.
  rewrite (exchange_ready w clock store st Hready).
  destruct (page_request_taken w st Hready Hlen) as [Hjson Hvalid].
  set (wp := posted w (page_body st)).
  assert (Hp : Takes wp store (Completed (page_request st) T)).
  { split; [by exists (page_body st)|]. split; [exact Hstream|].
    by apply is_empty_false. }
  rewrite (serve_path wp store _ Hp). cbn [result_of fst snd].
  rewrite (receive_user_first wp clock (page_request st) _ (posting_state st)
             eq_refl (Hup 0%nat)).
  rewrite receive_app. unfold chunk_calls.
  change (channel_of (rb_sessionId (page_request st)))
    with ("chat-" +:+ client_sessionId
            (on_user_message (clock 0%nat) (rb_message (page_request st))
               (toISOString wp 0%nat) (posting_state st))).
  rewrite (receive_chunks_up wp clock _ _ Hup).
  unfold complete_trigger.
  destruct (stream_chunks wp _ _) as [|c chunks];
    (erewrite receive_one; [|reflexivity|apply Hup]);
    eexists _, _;
    cbn; unfold history_of, assistant_turn;
    cbn [rb_sessionId rb_message page_request];
    unfold on_complete, on_chunk, on_user_message, posting_state;
    cbn [messages inputMessage isLoading client_sessionId
         currentAssistantMessage currentMessageId alerts];
    rewrite <- !app_assoc; reflexivity.
Qed.

Lemma exchange_completes_witness :
  exists sent done,
    exchange (mock_world (Return JNull)) (fun _ => "1714564800001") ∅
      (typing "  hello ") =
    Some ({| messages :=
               [{| m_id := "user_1714564800001"; m_type := by_user;
                   m_content := "hello"; m_timestamp := sent |};
                {| m_id := "msg_1714564800000_k3x9q2m7c";
                   m_type := by_assistant;
                   m_content := mockResponse "hello";
                   m_timestamp := done |}];
             inputMessage := EmptyString;
             isLoading := false;
             client_sessionId := "session_17_abc";
             currentAssistantMessage := EmptyString;
             currentMessageId := None;
             alerts := [] |},
          <["session_17_abc" :=
              [system_turn;
               {| role := user; content := "hello" |};
               {| role := assistant; content := mockResponse "hello" |}]]>
            ∅).
Proof.
  refine (exchange_completes (mock_world (Return JNull))
            (fun _ => "1714564800001") ∅ (typing "  hello ")
            (mockResponse "hello") _ _ _ eq_refl _).
  - split; [discriminate|]. split; [reflexivity|]. by exists "17", "abc".
  - vm_compute. lia.
  - intros n. reflexivity.
  - discriminate.
Defined.

Lemma classified_not_ok e details :
  response_ok
    {| status := ei_status (handleOpenAIError e);
       body := ErrorResponse (ei_message (handleOpenAIError e)) details
                 (Some (ei_code (handleOpenAIError e))) |} = false.
Proof.
  destruct (some_rule_applies e) as [r Hr].
  rewrite (handleOpenAIError_rule r e Hr). by destruct r.
Qed.

Lemma error_response_not_ok w e : response_ok (error_response w e) = false.
Proof.
  unfold error_response. by destruct (isValidationError (errorMessage_of e)).
Qed.

(** X20: a model failure, seen from the page.  When the page posts a valid
    input, the broker accepts every call and the model call fails, the
    page shows the user's message, is idle again and has alerted once,
    "Failed to send message. Please try again.": the [service-error] event
    has no handler and changes nothing.  The partial text relayed before
    the failure, if any, stays on display: nothing clears it. *)
Theorem exchange_with_model_failure w clock store st client e :
  ready st ->
  (String.length (Js.trim (inputMessage st)) <= 4000)%nat ->
  broker_up w ->
  mock_mode w = false ->
  openai w = Some client ->
  let history := resolved store (client_sessionId st) ++
                 [{| role := user; content := Js.trim (inputMessage st) |}] in
  failure (client history) = Some e ->
  exists sent,
    exchange w clock store st =
    Some ({| messages := messages st ++
               [{| m_id := "user_" +:+ clock 0%nat; m_type := by_user;
                   m_content := Js.trim (inputMessage st);
                   m_timestamp := sent |}];
             inputMessage := EmptyString;
             isLoading := false;
             client_sessionId := client_sessionId st;
             currentAssistantMessage :=
               match nonempty_units (deltas (client history)) with
               | [] => currentAssistantMessage st
               | _ => join (deltas (client history))
               end;
             currentMessageId :=
               match nonempty_units (deltas (client history)) with
               | [] => currentMessageId st
               | _ => Some (fresh_messageId w)
               end;
             alerts := alerts st ++
                       ["Failed to send message. Please try again."] |},
          <[client_sessionId st := history]> store).
Proof.
  intros Hready Hlen Hup Hmock Hclient history Hfail.
  rewrite (exchange_ready w clock store st Hready).
  destruct (page_request_taken w st Hready Hlen) as [Hjson Hvalid].
  set (wp := posted w (page_body st)).
  assert (Hp : Takes wp store (ModelFailed (page_request st) e)).
  { split; [by exists (page_body st)|]. split; [exact Hmock|].
    by exists client. }
  rewrite (serve_path wp store _ Hp). cbn [result_of fst snd].
  rewrite (receive_user_first wp clock (page_request st) _ (posting_state st)
             eq_refl (Hup 0%nat)).
  rewrite receive_app. unfold chunk_calls.
  change (channel_of (rb_sessionId (page_request st)))
    with ("chat-" +:+ client_sessionId
            (on_user_message (clock 0%nat) (rb_message (page_request st))
               (toISOString wp 0%nat) (posting_state st))).
  rewrite (receive_chunks_up wp clock _ _ Hup).
  unfold service_error_trigger.
  assert (Hchunks : stream_chunks wp (rb_message (page_request st))
                      (history_of store (page_request st))
                    = nonempty_units (deltas (client history))).
  { unfold stream_chunks. change (mock_mode wp) with (mock_mode w).
    change (openai wp) with (openai w). by rewrite Hmock, Hclient. }
  rewrite Hchunks.
  pose proof (join_nonempty_units (deltas (client history))) as Hjoin.
  destruct (nonempty_units (deltas (client history))) as [|c chunks];
    (erewrite receive_one; [|reflexivity|apply Hup]);
    change (on_event ?now ?c ?s) with (Some s); cbn beta iota;
    unfold sendMessage_settle; rewrite classified_not_ok;
    eexists; rewrite <- ?Hjoin; reflexivity.
Qed.

Lemma exchange_with_model_failure_witness :
  exists sent,
    exchange (steady_world breaking_client)
      (fun _ => "1714564800001") ∅ (typing "hello") =
    Some ({| messages :=
               [{| m_id := "user_1714564800001"; m_type := by_user;
                   m_content := "hello"; m_timestamp := sent |}];
             inputMessage := EmptyString;
             isLoading := false;
             client_sessionId := "session_17_abc";
             currentAssistantMessage := "Hello";
             currentMessageId := Some "msg_1714564800000_k3x9q2m7c";
             alerts := ["Failed to send message. Please try again."] |},
          <["session_17_abc" :=
              [system_turn; {| role := user; content := "hello" |}]]> ∅).
Proof.
  refine (exchange_with_model_failure (steady_world breaking_client)
            (fun _ => "1714564800001") ∅ (typing "hello")
            breaking_client unavailable_error _ _ _ eq_refl eq_refl eq_refl).
  - split; [discriminate|]. split; [reflexivity|]. by exists "17", "abc".
  - vm_compute. lia.
  - intros n. reflexivity.
Defined.

(** X21: a blank reply alerts twice.  When the page posts a valid input,
    the broker accepts every call and the stream ends normally with a
    blank text, the page receives the [error] event and then the 500
    response: it shows the user's message, is idle again, and has alerted
    twice, first "An error occurred. Please try again." and then "Failed
    to send message. Please try again.".  The store keeps the user turn
    only. *)
Theorem exchange_with_blank_reply w clock store st T :
  ready st ->
  (String.length (Js.trim (inputMessage st)) <= 4000)%nat ->
  broker_up w ->
  let history := resolved store (client_sessionId st) ++
                 [{| role := user; content := Js.trim (inputMessage st) |}] in
  StreamSucceeds w (Js.trim (inputMessage st)) history T ->
  Js.trim T = EmptyString ->
  fst (fst (serve (posted w (page_body st)) store)) =
  Return {| status := 500;
            body := ErrorResponse "Failed to process message"
                      (details_of w "No response generated")
                      (Some "PROCESSING_ERROR") |} /\
  exists final sent,
    exchange w clock store st =
      Some (final, <[client_sessionId st := history]> store) /\
    messages final = messages st ++
      [{| m_id := "user_" +:+ clock 0%nat; m_type := by_user;
          m_content := Js.trim (inputMessage st); m_timestamp := sent |}] /\
    isLoading final = false /\
    inputMessage final = EmptyString /\
    alerts final = alerts st ++
      ["An error occurred. Please try again.";
       "Failed to send message. Please try again."].
Proof.
  intros Hready Hlen Hup history Hstream HT.
  rewrite (exchange_ready w clock store st Hready).
  destruct (page_request_taken w st Hready Hlen) as [Hjson Hvalid].
  set (wp := posted w (page_body st)).
  assert (Hp : Takes wp store (Blank (page_request st) T)).
  { split; [by exists (page_body st)|]. split; [exact Hstream|].
    by apply is_empty_true. }
  rewrite (serve_path wp store _ Hp). cbn [result_of fst snd].
  split; [reflexivity|].
  rewrite (receive_user_first wp clock (page_request st) _ (posting_state st)
             eq_refl (Hup 0%nat)).
  rewrite receive_app. unfold chunk_calls.
  change (channel_of (rb_sessionId (page_request st)))
    with ("chat-" +:+ client_sessionId
            (on_user_message (clock 0%nat) (rb_message (page_request st))
               (toISOString wp 0%nat) (posting_state st))).
  rewrite (receive_chunks_up wp clock _ _ Hup).
  unfold error_trigger.
  destruct (stream_chunks wp _ _) as [|c chunks];
    (erewrite receive_one; [|reflexivity|apply Hup]);
    change (on_event ?now ?c ?s) with (Some (on_error s)); cbn beta iota;
    unfold sendMessage_settle; rewrite error_response_not_ok;
    eexists _, _; (split; [reflexivity|]); cbn;
    by rewrite <- !app_assoc.
Qed.

Lemma exchange_with_blank_reply_witness :
  fst (fst (serve (posted (steady_world blank_client)
                     (page_body (typing "hello"))) ∅)) =
  Return {| status := 500;
            body := ErrorResponse "Failed to process message" None
                      (Some "PROCESSING_ERROR") |} /\
  exists final sent,
    exchange (steady_world blank_client) (fun _ => "1714564800001") ∅
      (typing "hello") =
      Some (final,
            <["session_17_abc" :=
                [system_turn; {| role := user; content := "hello" |}]]> ∅) /\
    messages final =
      [{| m_id := "user_1714564800001"; m_type := by_user;
          m_content := "hello"; m_timestamp := sent |}] /\
    isLoading final = false /\
    inputMessage final = EmptyString /\
    alerts final =
      ["An error occurred. Please try again.";
       "Failed to send message. Please try again."].
Proof.
  refine (exchange_with_blank_reply (steady_world blank_client)
            (fun _ => "1714564800001") ∅ (typing "hello") " " _ _ _ _ _).
  - split; [discriminate|]. split; [reflexivity|]. by exists "17", "abc".
  - vm_compute. lia.
  - intros n. reflexivity.
  - exists blank_client. by repeat split.
  - reflexivity.
Defined.

(** The user message and the chunks as the page receives them whatever
    the broker does. *)
Lemma receive_body_any w clock vb messageId chunks st :
  rb_sessionId vb = client_sessionId st ->
  exists i st2,
    (forall rest,
       receive clock 0
         (user_trigger w vb ::
          chunk_triggers w (channel_of (rb_sessionId vb)) messageId chunks
            EmptyString 1 1 ++ rest) st
       = receive clock i rest st2) /\
    client_sessionId st2 = client_sessionId st /\
    isLoading st2 = isLoading st /\
    alerts st2 = alerts st /\
    inputMessage st2 = inputMessage st /\
    (messages st2 = messages st \/
     messages st2 = messages st ++
       [{| m_id := "user_" +:+ clock 0%nat; m_type := by_user;
           m_content := rb_message vb;
           m_timestamp := toISOString w 0%nat |}]) /\
    (currentAssistantMessage st2 = currentAssistantMessage st \/
     exists k, currentAssistantMessage st2 = join (take k chunks)).
Proof.
  intros Hsid.
  assert (Hfirst : exists i st1,
    (forall rest, receive clock 0 (user_trigger w vb :: rest) st
                  = receive clock i rest st1) /\
    (st1 = st \/
     st1 = on_user_message (clock 0%nat) (rb_message vb)
             (toISOString w 0%nat) st)).
  { destruct (trigger_failure w 0%nat) as [e|] eqn:Hfate.
    - exists 0%nat, st. split; [|by left]. intros rest.
      cbn [receive]. unfold user_trigger, reaches_client. cbn [delivered].
      by rewrite Hfate, bool_decide_eq_false_2.
    - exists 1%nat, (on_user_message (clock 0%nat) (rb_message vb)
                       (toISOString w 0%nat) st).
      split; [|by right]. intros rest.
      by apply receive_user_first. }
  destruct Hfirst as (i & st1 & Hrest & Hst1).
  assert (Hsid1 : client_sessionId st1 = client_sessionId st)
    by (by destruct Hst1 as [->| ->]).
  destruct (receive_chunks_any w clock messageId chunks EmptyString 1 1 i st1)
    as (st2 & Hrun & Hst2).
  exists (i + arrivals st1
                (chunk_triggers w ("chat-" +:+ client_sessionId st1)
                   messageId chunks EmptyString 1 1))%nat, st2.
  split.
  { intros rest. rewrite Hrest, receive_app. unfold channel_of.
    rewrite Hsid, <- Hsid1. by rewrite Hrun. }
  destruct Hst1 as [->| ->], Hst2 as [->|(k & _ & ->)]; cbn;
    repeat split; try done; try (by left); try (by right);
    right; by exists k.
Qed.

(** X22: a lost completion leaves the page waiting.  When a request
    succeeds but the broker did not accept its last call, the completion
    event, then whatever happened to the other calls the page is still
    loading after the 200 response, with its input cleared and no alert:
    it shows at most the user's message, never the reply, although the
    store holds the reply. *)
Theorem lost_completion_keeps_page_loading w clock store st T closing :
  ready st ->
  (String.length (Js.trim (inputMessage st)) <= 4000)%nat ->
  let history := resolved store (client_sessionId st) ++
                 [{| role := user; content := Js.trim (inputMessage st) |}] in
  StreamSucceeds w (Js.trim (inputMessage st)) history T ->
  Js.trim T <> EmptyString ->
  last (snd (serve (posted w (page_body st)) store)) = Some closing ->
  delivered closing = false ->
  exists final,
    exchange w clock store st =
      Some (final,
            <[client_sessionId st :=
                history ++ [{| role := assistant; content := T |}]]> store) /\
    isLoading final = true /\
    inputMessage final = EmptyString /\
    alerts final = alerts st /\
    (messages final = messages st \/
     exists sent,
       messages final = messages st ++
         [{| m_id := "user_" +:+ clock 0%nat; m_type := by_user;
             m_content := Js.trim (inputMessage st);
             m_timestamp := sent |}]).
Proof.
  intros Hready Hlen history Hstream HT Hlast Hlost.
  rewrite (exchange_ready w clock store st Hready).
  destruct (page_request_taken w st Hready Hlen) as [Hjson Hvalid].
  set (wp := posted w (page_body st)) in *.
  assert (Hp : Takes wp store (Completed (page_request st) T)).
  { split; [by exists (page_body st)|]. split; [exact Hstream|].
    by apply is_empty_false. }
  rewrite (serve_path wp store _ Hp) in Hlast |- *.
  cbn [result_of fst snd] in Hlast |- *.
  set (sent_last := complete_trigger wp _ _ _) in *.
  rewrite app_comm_cons, last_snoc in Hlast. injection Hlast as Hsame.
  rewrite <- Hsame in Hlost.
  destruct (receive_body_any wp clock (page_request st) (fresh_messageId wp)
              (stream_chunks wp (rb_message (page_request st))
                 (history_of store (page_request st)))
              (posting_state st) eq_refl)
    as (i & st2 & Hrun & Hsid & Hload & Halerts & Hinput & Hmsgs & _).
  unfold chunk_calls. rewrite Hrun. cbn [receive].
  unfold reaches_client. rewrite Hlost. cbn [andb].
  change (sendMessage_settle _ st2) with st2.
  exists st2. split; [reflexivity|].
  repeat split; try done.
  destruct Hmsgs as [->| ->]; [by left|right]. by eexists.
Qed.

Lemma lost_completion_witness :
  exists final,
    exchange (live_world (Return JNull) greeting_client)
      (fun _ => "1714564800001") ∅ (typing "hello") =
      Some (final,
            <["session_17_abc" :=
                [system_turn; {| role := user; content := "hello" |};
                 {| role := assistant; content := "Hi there" |}]]> ∅) /\
    isLoading final = true /\
    inputMessage final = EmptyString /\
    alerts final = [] /\
    (messages final = [] \/
     exists sent,
       messages final =
         [{| m_id := "user_1714564800001"; m_type := by_user;
             m_content := "hello"; m_timestamp := sent |}]).
Proof.
  refine (lost_completion_keeps_page_loading
            (live_world (Return JNull) greeting_client)
            (fun _ => "1714564800001") ∅ (typing "hello") "Hi there"
            (complete_trigger
               (live_world (Return JNull) greeting_client)
               "session_17_abc" "Hi there" 2)
            _ _ _ _ _ _).
  - split; [discriminate|]. split; [reflexivity|]. by exists "17", "abc".
  - vm_compute. lia.
  - exists greeting_client. by repeat split.
  - discriminate.
  - by vm_compute.
  - reflexivity.
Defined.

Lemma join_app a b : join (a ++ b) = join a +:+ join b.
Proof.
  induction a as [|x a IH]; [reflexivity|].
  cbn [app join foldr]. unfold join in IH. by rewrite IH, append_assoc.
Qed.

Lemma join_take_prefix k pieces : is_prefix (join (take k pieces)) (join pieces).
Proof.
  exists (join (drop k pieces)).
  by rewrite <- join_app, take_drop.
Qed.

Lemma take_chunk_triggers w ch messageId k chunks : forall acc n t,
  take k (chunk_triggers w ch messageId chunks acc n t) =
  chunk_triggers w ch messageId (take k chunks) acc n t.
Proof.
  revert k. induction chunks as [|c chunks IH]; intros k acc n t.
  - by destruct k.
  - destruct k as [|k]; [reflexivity|]. cbn. by rewrite IH.
Qed.

(** X23: what the page displays while a reply streams is always an initial
    part of the reply.  Take a request posted by the page whose stream
    succeeds with the text [T], and any number [k] of its broker calls
    made so far, of which the broker may have lost any: after the ones
    that reach the page, the text on display is either what it was before
    or an initial part of [T]. *)
Theorem displayed_text_is_a_prefix w clock store st T k :
  ready st ->
  (String.length (Js.trim (inputMessage st)) <= 4000)%nat ->
  StreamSucceeds w (Js.trim (inputMessage st))
    (resolved store (client_sessionId st) ++
     [{| role := user; content := Js.trim (inputMessage st) |}]) T ->
  exists st',
    receive clock 0 (take k (snd (serve (posted w (page_body st)) store)))
      (posting_state st) = Some st' /\
    (currentAssistantMessage st' = currentAssistantMessage st \/
     is_prefix (currentAssistantMessage st') T).
Proof.
  intros Hready Hlen Hstream.
  destruct (page_request_taken w st Hready Hlen) as [Hjson Hvalid].
  set (wp := posted w (page_body st)) in *.
  set (vb := page_request st) in *.
  pose proof (stream_chunks_join wp _ _ _ Hstream) as Hjoin.
  assert (Hcalls : exists closing,
    snd (serve wp store) = user_trigger wp vb :: chunk_calls wp store vb
                           ++ [closing] /\
    forall now s,
      exists s', on_event now closing s = Some s' /\
        (currentAssistantMessage s' = currentAssistantMessage s \/
         currentAssistantMessage s' = EmptyString)).
  { destruct (Js.is_empty (Js.trim T)) eqn:HT.
    - assert (Hp : Takes wp store (Blank vb T))
        by (split; [by exists (page_body st)|by split]).
      rewrite (serve_path wp store _ Hp). cbn [result_of snd].
      eexists. split; [reflexivity|]. intros now s.
      exists (on_error s). split; [reflexivity|by left].
    - assert (Hp : Takes wp store (Completed vb T))
        by (split; [by exists (page_body st)|by split]).
      rewrite (serve_path wp store _ Hp). cbn [result_of snd].
      eexists. split; [reflexivity|]. intros now s.
      eexists. split; [reflexivity|by right]. }
  destruct Hcalls as (closing & -> & Hclosing).
  destruct k as [|j].
  { exists (posting_state st). split; [reflexivity|by left]. }
  cbn [take]. rewrite take_app. unfold chunk_calls.
  rewrite take_chunk_triggers.
  destruct (receive_body_any wp clock vb (fresh_messageId wp)
              (take j (stream_chunks wp (rb_message vb)
                         (history_of store vb)))
              (posting_state st) eq_refl)
    as (i & st2 & Hrun & _ & _ & _ & _ & _ & Hshown).
  rewrite Hrun.
  assert (Hst2 : currentAssistantMessage st2 = currentAssistantMessage st \/
                 is_prefix (currentAssistantMessage st2) T).
  { destruct Hshown as [->|[k' ->]]; [by left|right].
    rewrite take_take, <- Hjoin. apply join_take_prefix. }
  destruct (take _ [closing]) as [|c [|? ?]] eqn:Htake.
  - by exists st2.
  - assert (c = closing) as ->.
    { destruct (j - _)%nat; cbn in Htake; [discriminate|].
      by injection Htake. }
    cbn [receive]. destruct (reaches_client st2 closing); [|by exists st2].
    destruct (Hclosing (clock i) st2) as (s' & -> & [Hsame| Hnone]).
    + exists s'. split; [reflexivity|]. by rewrite Hsame.
    + exists s'. split; [reflexivity|]. right. rewrite Hnone. by exists T.
  - apply (f_equal length) in Htake. rewrite length_take in Htake.
    cbn in Htake. lia.
Qed.

Lemma displayed_text_is_a_prefix_witness :
  exists st',
    receive (fun _ => "1714564800001") 0
      (take 3 (snd (serve (posted (live_world (Return JNull) greeting_client)
                             (page_body (typing "hello"))) ∅)))
      (posting_state (typing "hello")) = Some st' /\
    (currentAssistantMessage st' = EmptyString \/
     is_prefix (currentAssistantMessage st') "Hi there").
Proof.
  refine (displayed_text_is_a_prefix
            (live_world (Return JNull) greeting_client)
            (fun _ => "1714564800001") ∅ (typing "hello") "Hi there" 3
            _ _ _).
  - split; [discriminate|]. split; [reflexivity|]. by exists "17", "abc".
  - vm_compute. lia.
  - exists greeting_client. by repeat split.
Defined.


